(** * Automated book publication pipeline (main.py): model and properties

    The pipeline fetches a chapter, rewrites it with a generative model for a
    fixed number of iterations, lets an operator accept, edit or reject each
    rewrite, stores every variant in a ChromaDB collection and ends with one
    demonstration query.

    The Python functions are embedded as functions of a small state and
    exception monad over a [World]: the ChromaDB collection, the operator's
    pending input lines, and the record of everything the program logged,
    printed or asked of an external service.  The external services
    themselves (browser, generative model, vector store faults, embedding
    distance) are the fields of an [Env], so that every statement below
    holds whatever they answer.

    [main] is embedded as [pipeline], with the three constants of its first
    lines (URL, chapter id, number of iterations) as parameters; the check of
    the API key at import time is outside [main] and not part of the model.
    Texts are sequences of ASCII characters. *)

From Stdlib Require Import Ascii String QArith_base.
From stdpp Require Import base option list sorting gmap strings pretty.

Local Open Scope string_scope.
Local Open Scope list_scope.

(** ** Python string operations *)

Module Py.

Definition nl : string := String (ascii_of_nat 10) "".

(** [str.isspace] on one ASCII character: TAB..CR, FS..US and the blank. *)
Definition isspace (c : ascii) : bool :=
  let n := nat_of_ascii c in
  ((9 <=? n) && (n <=? 13) || (28 <=? n) && (n <=? 32))%nat.

Definition lower_char (c : ascii) : ascii :=
  let n := nat_of_ascii c in
  if ((65 <=? n) && (n <=? 90))%nat then ascii_of_nat (n + 32) else c.

Definition upper_char (c : ascii) : ascii :=
  let n := nat_of_ascii c in
  if ((97 <=? n) && (n <=? 122))%nat then ascii_of_nat (n - 32) else c.

Fixpoint map_chars (f : ascii → ascii) (s : string) : string :=
  match s with
  | "" => ""
  | String c s' => String (f c) (map_chars f s')
  end.

(** [s.lower()] and [s.upper()] *)
Definition lower : string → string := map_chars lower_char.
Definition upper : string → string := map_chars upper_char.

Fixpoint lstrip (s : string) : string :=
  match s with
  | "" => ""
  | String c s' => if isspace c then lstrip s' else s
  end.

(** [s.strip()] *)
Definition strip (s : string) : string :=
  String.rev (lstrip (String.rev (lstrip s))).

(** [sep.join(parts)] *)
Definition join (sep : string) (parts : list string) : string :=
  String.concat sep parts.

(** Truth value of an optional text: [None] and [''] are both false. *)
Definition truthy (o : option string) : bool :=
  match o with
  | Some "" => false
  | Some _ => true
  | None => false
  end.

(** [os.path.join(d, f)] for a directory name without trailing slash. *)
Definition path_join (d f : string) : string := d +:+ "/" +:+ f.

End Py.

(** ** The ChromaDB collection *)

(** The metadata dictionary [{"id": ..., "version_type": ...}]. *)
Record Meta := { meta_id : string; version_type : string }.

Global Instance Meta_eq_dec : EqDecision Meta.
Proof. solve_decision. Defined.

(** A collection maps a record id to its document and metadata. *)
Abbreviation Collection := (gmap string (string * Meta)).

Inductive Exn :=
| EOFError            (* input() at end of input *)
| IndexError          (* list index out of range *)
| DuplicateIDError    (* collection.add on an id already present *)
| ServiceError.       (* any failure of an external service *)

Inductive Res (A : Type) :=
| Ret (a : A)
| Raise (e : Exn).
Arguments Ret {A} a.
Arguments Raise {A} e.

(** What [collection.add] does with an id that is already present depends on
    the ChromaDB release: older ones raise, newer ones skip the record.  In
    neither does [add] replace a stored record (that is [upsert]/[update]). *)
Inductive DupPolicy := RaiseOnDuplicate | IgnoreDuplicate.

(** One entry of a query answer. *)
Record Hit := { hit_doc : string; hit_meta : Meta; hit_distance : Q }.

(** The dictionary returned by [collection.query]: one inner list per query
    text. *)
Record QueryResult := {
  documents : list (list string);
  metadatas : list (list Meta);
  distances : list (list Q)
}.

(** ** External services *)

(** What the two selectors of [scrape_and_screenshot] match on a page: the
    inner texts of the matched elements, in document order. *)
Record Page := {
  primary_paragraphs : list string;   (* 'div.mw-parser-output p' *)
  body_paragraphs : list string       (* 'body p' *)
}.

Inductive PageLoad :=
| GotoFails
| ScreenshotFails
| Loaded (p : Page).

Record Env := {
  (** the browser session opened on a URL *)
  browse : string → PageLoad;
  (** [model.generate_content_async(prompt)] followed by [.text], for the
      k-th call of the run: [None] when either raises *)
  gemini : nat → string → option string;
  (** [client.get_or_create_collection] succeeds *)
  collection_ready : bool;
  duplicate_policy : DupPolicy;
  (** [collection.add] raises for a reason other than a duplicate id *)
  add_fault : Collection → string → string → bool;
  (** [collection.query] raises *)
  query_fault : Collection → string → bool;
  (** distance between the embeddings of a query text and of a document *)
  embedding_distance : string → string → Q
}.

(** ** Observable behaviour *)

Inductive Level := INFO | WARNING | ERROR.

(** The messages passed to [logging], one constructor per call site. *)
Inductive Msg :=
| MsgStored (content_id version : string)
| MsgStoreError (content_id : string)
| MsgSearchDone (query_text : string)
| MsgSearchError
| MsgNavigating (url : string)
| MsgScreenshotSaved (path : string)
| MsgScraped (chars : nat)
| MsgScrapeError
| MsgSpinSending (iteration : nat)
| MsgSpinDone (chars : nat)
| MsgSpinError
| MsgReviewSending
| MsgReviewDone
| MsgReviewError
| MsgHumanAccepted (chapter_id : string)
| MsgHumanEdited (chapter_id : string)
| MsgHumanRejected (chapter_id : string)
| MsgCollectionReady (name : string)
| MsgInitFailed
| MsgScrapeFailed
| MsgIterationStart (iteration : nat)
| MsgSpinFailed (iteration : nat)
| MsgRejectedInIteration (iteration : nat)
| MsgComplete.

(** What [print] writes.  The two lines of a search result that format a
    float or a list are kept structured. *)
Inductive Out :=
| OutText (s : string)
| OutResultHeader (number : nat) (distance : Q)
| OutSnippet (docs : list string).

(** Requests made to the outside. *)
Inductive Call :=
| EnsureDirectory (path : string)
| PageGoto (url : string)
| PageScreenshot (path : string)
| BrowserClose
| GenerateContent (prompt : string)
| CollectionAdd (content_id document : string) (metadata : Meta)
| CollectionQuery (query_text : string) (n_results : nat)
| Input (prompt line : string).

Inductive Event :=
| Log (l : Level) (m : Msg)
| Print (o : Out)
| Ext (c : Call).

(** The state a run acts on.  [trace] is most recent first. *)
Record World := {
  coll : Collection;
  stdin : list string;
  trace : list Event
}.

Definition emit (e : Event) (w : World) : World :=
  {| coll := coll w; stdin := stdin w; trace := e :: trace w |}.

Definition set_coll (c : Collection) (w : World) : World :=
  {| coll := c; stdin := stdin w; trace := trace w |}.

Definition set_stdin (l : list string) (w : World) : World :=
  {| coll := coll w; stdin := l; trace := trace w |}.

(** The writes requested from the collection, most recent first. *)
Definition writes (t : list Event) : list (string * string * Meta) :=
  omap (λ e, match e with
             | Ext (CollectionAdd i d m) => Some (i, d, m)
             | _ => None
             end) t.

Definition write_ids (t : list Event) : list string :=
  (λ x, x.1.1) <$> writes t.

(** The queries sent to the collection, and the prompts sent to the model. *)
Definition queries (t : list Event) : list (string * nat) :=
  omap (λ e, match e with
             | Ext (CollectionQuery q n) => Some (q, n)
             | _ => None
             end) t.

Definition prompts (t : list Event) : list string :=
  omap (λ e, match e with
             | Ext (GenerateContent p) => Some p
             | _ => None
             end) t.

(** ** The monad of the embedding *)

Definition M (A : Type) : Type := World → Res A * World.

Definition ret {A} (a : A) : M A := λ w, (Ret a, w).

Definition bind {A B} (m : M A) (k : A → M B) : M B :=
  λ w, match m w with
       | (Ret a, w') => k a w'
       | (Raise e, w') => (Raise e, w')
       end.

Definition raise {A} (e : Exn) : M A := λ w, (Raise e, w).

(** [try: m  except Exception: h] *)
Definition try_except {A} (m : M A) (h : Exn → M A) : M A :=
  λ w, match m w with
       | (Ret a, w') => (Ret a, w')
       | (Raise e, w') => h e w'
       end.

Notation "'let*' x := m 'in' k" := (bind m (λ x, k))
  (at level 10, x name, m at level 100, k at level 200).
Notation "m ;;; k" := (bind m (λ _, k))
  (at level 100, k at level 200, right associativity).

Definition log (l : Level) (m : Msg) : M unit := λ w, (Ret tt, emit (Log l m) w).
Definition print (s : string) : M unit := λ w, (Ret tt, emit (Print (OutText s)) w).
Definition print_out (o : Out) : M unit := λ w, (Ret tt, emit (Print o) w).
Definition call (c : Call) : M unit := λ w, (Ret tt, emit (Ext c) w).

Definition lift_res {A} (r : Res A) : M A := λ w, (r, w).
Definition get_coll : M Collection := λ w, (Ret (coll w), w).
Definition put_coll (c : Collection) : M unit := λ w, (Ret tt, set_coll c w).

(** ** The program *)

Definition GEMINI_MODEL_NAME : string := "gemini-1.5-flash".
Definition CHROMA_DB_PATH : string := "./chroma_db".
Definition COLLECTION_NAME : string := "book_chapters".

Section Program.

Variable E : Env.

(** *** ChromaDB primitives *)

(** [collection.add(documents=[doc], metadatas=[m], ids=[id])] *)
Definition collection_add (c : Collection) (id doc : string) (m : Meta)
  : Res Collection :=
  if add_fault E c id doc then Raise ServiceError
  else match c !! id with
       | None => Ret (<[id := (doc, m)]> c)
       | Some _ =>
           match duplicate_policy E with
           | RaiseOnDuplicate => Raise DuplicateIDError
           | IgnoreDuplicate => Ret c
           end
       end.

(** The stored records by ascending distance to the query text. *)
Definition closer (query_text : string) (a b : string * (string * Meta)) : Prop :=
  Qle_bool (embedding_distance E query_text a.2.1)
           (embedding_distance E query_text b.2.1).

Global Instance closer_dec q a b : Decision (closer q a b).
Proof. unfold closer. apply _. Defined.

Definition nearest (c : Collection) (query_text : string) : list Hit :=
  (λ r, {| hit_doc := r.2.1; hit_meta := r.2.2;
           hit_distance := embedding_distance E query_text r.2.1 |})
    <$> merge_sort (closer query_text) (map_to_list c).

(** [collection.query(query_texts=[q], n_results=n, include=[...])] *)
Definition collection_query (c : Collection) (query_text : string) (n_results : nat)
  : Res QueryResult :=
  if query_fault E c query_text then Raise ServiceError
  else
    let hits := take n_results (nearest c query_text) in
    Ret {| documents := [hit_doc <$> hits];
           metadatas := [hit_meta <$> hits];
           distances := [hit_distance <$> hits] |}.

(** *** Utility functions *)

Definition store_content_in_chroma (content_id content_text version : string)
  : M unit :=
  try_except
    (call (CollectionAdd content_id content_text
             {| meta_id := content_id; version_type := version |});;;
     let* c := get_coll in
     let* c' := lift_res (collection_add c content_id content_text
                            {| meta_id := content_id; version_type := version |}) in
     put_coll c';;;
     log INFO (MsgStored content_id version))
    (λ _, log ERROR (MsgStoreError content_id)).

Definition default_n_results : nat := 1.

Definition semantic_search_chroma (query_text : string) (n_results : nat)
  : M (option QueryResult) :=
  try_except
    (call (CollectionQuery query_text n_results);;;
     let* c := get_coll in
     let* results := lift_res (collection_query c query_text n_results) in
     log INFO (MsgSearchDone query_text);;;
     ret (Some results))
    (λ _, log ERROR MsgSearchError;;; ret None).

(** *** Workflow functions *)

Definition default_output_dir : string := "screenshots".

Definition scrape_and_screenshot (url output_dir : string) : M (option string) :=
  call (EnsureDirectory output_dir);;;
  try_except
    (log INFO (MsgNavigating url);;;
     call (PageGoto url);;;
     match browse E url with
     | GotoFails => raise ServiceError
     | ScreenshotFails =>
         call (PageScreenshot (Py.path_join output_dir "scraped_page.png"));;;
         raise ServiceError
     | Loaded page =>
         let screenshot_path := Py.path_join output_dir "scraped_page.png" in
         call (PageScreenshot screenshot_path);;;
         log INFO (MsgScreenshotSaved screenshot_path);;;
         let content_elements := primary_paragraphs page in
         let content_elements :=
           match content_elements with
           | [] => body_paragraphs page
           | _ :: _ => content_elements
           end in
         let scraped_text := Py.join Py.nl content_elements in
         log INFO (MsgScraped (String.length scraped_text));;;
         call BrowserClose;;;
         ret (Some scraped_text)
     end)
    (λ _, log ERROR MsgScrapeError;;; call BrowserClose;;; ret None).

Definition spin_prompt (original_text : string) (current_iteration : nat) : string :=
  "You are an AI Writer. Rewrite the following chapter text, focusing on creating a more engaging "
  +:+ "narrative style. Keep the core information but rephrase and expand where appropriate. "
  +:+ "This is iteration " +:+ pretty current_iteration
  +:+ ". Only provide the rewritten text." +:+ Py.nl +:+ Py.nl
  +:+ "Original Chapter:" +:+ Py.nl +:+ original_text.

Definition review_prompt (chapter_text : string) : string :=
  "You are an AI Reviewer. Analyze the following chapter text for clarity, coherence, grammar, "
  +:+ "and engagement. Provide constructive feedback to improve it. Start with a summary of its strengths "
  +:+ "and then list specific areas for improvement. Focus on the content itself, not just grammar."
  +:+ Py.nl +:+ Py.nl
  +:+ "Chapter to Review:" +:+ Py.nl +:+ chapter_text.

(** [await model.generate_content_async(prompt)] then [response.text] *)
Definition generate_content (prompt : string) : M string :=
  λ w, match gemini E (length (prompts (trace w))) prompt with
       | Some text => (Ret text, emit (Ext (GenerateContent prompt)) w)
       | None => (Raise ServiceError, emit (Ext (GenerateContent prompt)) w)
       end.

Definition ai_spin_chapter (original_text : string) (current_iteration : nat)
  : M (option string) :=
  if negb (Py.truthy (Some original_text)) then ret None
  else
    let prompt := spin_prompt original_text current_iteration in
    try_except
      (log INFO (MsgSpinSending current_iteration);;;
       let* spun_text := generate_content prompt in
       log INFO (MsgSpinDone (String.length spun_text));;;
       ret (Some spun_text))
      (λ _, log ERROR MsgSpinError;;; ret None).

Definition ai_review_chapter (chapter_text : string) : M (option string) :=
  if negb (Py.truthy (Some chapter_text)) then ret None
  else
    let prompt := review_prompt chapter_text in
    try_except
      (log INFO MsgReviewSending;;;
       let* review_text := generate_content prompt in
       log INFO MsgReviewDone;;;
       ret (Some review_text))
      (λ _, log ERROR MsgReviewError;;; ret None).

(** *** The human checkpoint *)

Definition decision_prompt : string :=
  "Enter 'accept', 'edit', or 'reject' this chapter: ".

(** The inner [while True] of the edit branch: one [input()] per turn,
    until a line that is DONE once stripped and upper-cased. *)
Fixpoint read_edits (pending edited_lines : list string) (w : World)
  : Res (list string) * World :=
  match pending with
  | [] => (Raise EOFError, set_stdin [] w)
  | line :: rest =>
      let w := emit (Ext (Input "" line)) (set_stdin rest w) in
      if Py.upper (Py.strip line) =? "DONE" then (Ret edited_lines, w)
      else read_edits rest (edited_lines ++ [line]) w
  end.

Definition edit_session : M (list string) := λ w, read_edits (stdin w) [] w.

(** The outer [while True]: one decision line per turn. *)
Fixpoint await_decision (pending : list string)
    (ai_generated_text chapter_id : string) (w : World)
  : Res (option string) * World :=
  match pending with
  | [] => (Raise EOFError, set_stdin [] w)
  | line :: rest =>
      let w := emit (Ext (Input decision_prompt line)) (set_stdin rest w) in
      let action := Py.strip (Py.lower line) in
      if action =? "accept" then
        (log INFO (MsgHumanAccepted chapter_id);;;
         store_content_in_chroma (chapter_id +:+ "_final") ai_generated_text "final";;;
         ret (Some ai_generated_text)) w
      else if action =? "edit" then
        (print (Py.nl +:+ "Please provide your edits. Enter 'DONE' on a new line when finished.");;;
         let* edited_lines := edit_session in
         let human_edited_text := Py.join Py.nl edited_lines in
         log INFO (MsgHumanEdited chapter_id);;;
         store_content_in_chroma (chapter_id +:+ "_human_edited")
           human_edited_text "human_edited";;;
         print (Py.nl +:+ "--- Edited Chapter Preview ---");;;
         print human_edited_text;;;
         print ("------------------------------" +:+ Py.nl);;;
         ret (Some human_edited_text)) w
      else if action =? "reject" then
        (log WARNING (MsgHumanRejected chapter_id);;;
         ret None) w
      else
        (print "Invalid input. Please enter 'accept', 'edit', or 'reject'.";;;
         await_decision rest ai_generated_text chapter_id) w
  end.

Definition human_in_the_loop_feedback (ai_generated_text chapter_id : string)
  : M (option string) :=
  print (Py.nl +:+ "--- Human-in-the-Loop Review ---");;;
  print ("AI Generated Chapter:" +:+ Py.nl);;;
  print ai_generated_text;;;
  print (Py.nl +:+ "-------------------------------" +:+ Py.nl);;;
  λ w, await_decision (stdin w) ai_generated_text chapter_id w.

(** *** The orchestrator *)

Definition target_url : string :=
  "https://en.wikisource.org/wiki/The_Gates_Of_Morning/Book_1/Chapter_1".
Definition chapter_id_base : string := "gates_of_morning_ch1".
Definition num_iterations : nat := 2.
Definition search_query : string :=
  "What happens to the protagonist in the beginning?".

(** [for i in range(i, i + todo)]: the body of the iteration loop; leaving
    the recursion is [break]. *)
Fixpoint iterations (base : string) (todo i : nat) (current_chapter_text : string)
  : M unit :=
  match todo with
  | 0 => ret tt
  | S todo' =>
      log INFO (MsgIterationStart i);;;
      let* ai_spun_text := ai_spin_chapter current_chapter_text i in
      if negb (Py.truthy ai_spun_text) then
        log ERROR (MsgSpinFailed i)
      else
        let ai_spun_text := default "" ai_spun_text in
        store_content_in_chroma (base +:+ "_ai_spun_iter_" +:+ pretty i)
          ai_spun_text ("ai_spun_iter_" +:+ pretty i);;;
        let* ai_review_feedback := ai_review_chapter ai_spun_text in
        (if Py.truthy ai_review_feedback then
           print (Py.nl +:+ "--- AI Reviewer Feedback ---");;;
           print (default "" ai_review_feedback);;;
           print ("----------------------------" +:+ Py.nl)
         else ret tt);;;
        let* human_decision_text :=
          human_in_the_loop_feedback ai_spun_text (base +:+ "_iter_" +:+ pretty i) in
        if Py.truthy human_decision_text then
          iterations base todo' (S i) (default "" human_decision_text)
        else
          log WARNING (MsgRejectedInIteration i)
  end.

(** [xs[j][0]] *)
Definition first_of {A} (xs : list (list A)) (j : nat) : M A :=
  match xs !! j with
  | Some (x :: _) => ret x
  | _ => raise IndexError
  end.

(** [for j, doc in enumerate(search_results['documents'])], from index [j] *)
Fixpoint print_results (search_results : QueryResult)
    (docs : list (list string)) (j : nat) : M unit :=
  match docs with
  | [] => ret tt
  | doc :: docs' =>
      let* metadata := first_of (metadatas search_results) j in
      let* distance := first_of (distances search_results) j in
      print_out (OutResultHeader (j + 1) distance);;;
      print ("    ID: " +:+ meta_id metadata
             +:+ ", Version Type: " +:+ version_type metadata);;;
      print_out (OutSnippet (take 200 doc));;;
      print "--------------------";;;
      print_results search_results docs' (S j)
  end.

Definition report (search_results : option QueryResult) : M unit :=
  match search_results with
  | Some results =>
      match documents results with
      | _ :: _ =>
          print ("Semantic search results for '" +:+ search_query +:+ "':");;;
          print_results results (documents results) 0
      | [] =>
          print ("No semantic search results found for '" +:+ search_query +:+ "'.")
      end
  | None =>
      print ("No semantic search results found for '" +:+ search_query +:+ "'.")
  end.

(** [main], with the three constants of its first lines as parameters. *)
Definition pipeline (url base : string) (n : nat) : M unit :=
  if negb (collection_ready E) then log ERROR MsgInitFailed
  else
    log INFO (MsgCollectionReady COLLECTION_NAME);;;
    let* original_chapter_text := scrape_and_screenshot url default_output_dir in
    if negb (Py.truthy original_chapter_text) then log ERROR MsgScrapeFailed
    else
      let original_chapter_text := default "" original_chapter_text in
      store_content_in_chroma (base +:+ "_original") original_chapter_text "original";;;
      iterations base n 1 original_chapter_text;;;
      print (Py.nl +:+ "--- Demonstrating Semantic Search ---");;;
      let* search_results := semantic_search_chroma search_query default_n_results in
      report search_results;;;
      log INFO MsgComplete.

Definition main : M unit := pipeline target_url chapter_id_base num_iterations.

End Program.

(** ** Runs *)

(** The world a run starts in: the collection persisted by earlier runs, the
    lines the operator is going to type, and nothing observed yet. *)
Definition fresh (c : Collection) (lines : list string) : World :=
  {| coll := c; stdin := lines; trace := [] |}.

(** The events of a world in the order they happened. *)
Definition history (w : World) : list Event := rev (trace w).

(** The events the properties below talk about: writes, queries, the
    transformer-failure log record and the lines of the result report. *)
Definition relevant (e : Event) : bool :=
  match e with
  | Ext (CollectionAdd _ _ _) | Ext (CollectionQuery _ _) => true
  | Log _ (MsgSpinFailed _) => true
  | Print (OutResultHeader _ _) | Print (OutSnippet _) => true
  | _ => false
  end.

Definition milestones (t : list Event) : list Event := List.filter relevant t.

(** The result blocks and the content snippets of the printed report. *)
Definition result_headers (t : list Event) : list nat :=
  omap (λ e, match e with
             | Print (OutResultHeader k _) => Some k
             | _ => None
             end) t.

Definition snippets (t : list Event) : list (list string) :=
  omap (λ e, match e with
             | Print (OutSnippet docs) => Some docs
             | _ => None
             end) t.

Section Effects.

Variable E : Env.

(** The collection after one [collection.add] wrapped in the try/except of
    [store_content_in_chroma]. *)
Definition commit (x : string * string * Meta) (c : Collection) : Collection :=
  match collection_add E c x.1.1 x.1.2 x.2 with
  | Ret c' => c'
  | Raise _ => c
  end.

(** The collection after a sequence of writes, given most recent first. *)
Definition replay (ws : list (string * string * Meta)) (c : Collection)
  : Collection :=
  foldr commit c ws.

(** [w'] is reached from [w] by the events [new] (most recent first). *)
Record advances (w : World) (new : list Event) (w' : World) : Prop := {
  adv_trace : trace w' = new ++ trace w;
  adv_coll : coll w' = replay (writes new) (coll w)
}.

End Effects.

(** The three writes of one iteration. *)
Definition add_event (content_id content_text version : string) : Event :=
  Ext (CollectionAdd content_id content_text
         {| meta_id := content_id; version_type := version |}).

Definition original_id (base : string) : string := base +:+ "_original".
Definition spun_id (base : string) (i : nat) : string :=
  base +:+ "_ai_spun_iter_" +:+ pretty i.
Definition checkpoint_id (base : string) (i : nat) : string :=
  base +:+ "_iter_" +:+ pretty i.
Definition final_id (base : string) (i : nat) : string :=
  checkpoint_id base i +:+ "_final".
Definition edited_id (base : string) (i : nat) : string :=
  checkpoint_id base i +:+ "_human_edited".

Definition spun_write (base : string) (i : nat) (text : string) : Event :=
  add_event (spun_id base i) text ("ai_spun_iter_" +:+ pretty i).

Inductive decision_write (base : string) (i : nat) : Event → Prop :=
| dw_final text :
    decision_write base i (add_event (final_id base i) text "final")
| dw_edited text :
    decision_write base i (add_event (edited_id base i) text "human_edited").

(** The milestones of the iteration loop started at index [i] with [todo]
    iterations left, in the order they happen, with the way the loop ends. *)
Inductive loop_milestones (base : string)
  : nat → nat → Res unit → list Event → Prop :=
| lm_done i :
    loop_milestones base 0 i (Ret tt) []
| lm_spin_failed todo i :
    loop_milestones base (S todo) i (Ret tt) [Log ERROR (MsgSpinFailed i)]
| lm_rejected todo i text :
    loop_milestones base (S todo) i (Ret tt) [spun_write base i text]
| lm_end_of_input todo i text :
    loop_milestones base (S todo) i (Raise EOFError) [spun_write base i text]
| lm_empty_edit todo i text :
    loop_milestones base (S todo) i (Ret tt)
      [spun_write base i text; add_event (edited_id base i) "" "human_edited"]
| lm_next todo i text d r rest :
    decision_write base i d →
    loop_milestones base todo (S i) r rest →
    loop_milestones base (S todo) i r (spun_write base i text :: d :: rest).

(** The ids the orchestrator and the checkpoint build, for a run of [n]
    iterations. *)
Definition written_id (base : string) (n : nat) (content_id : string) : Prop :=
  content_id = original_id base ∨
  ∃ i : nat, (1 ≤ i ≤ n)%nat ∧
    (content_id = spun_id base i ∨ content_id = final_id base i ∨
     content_id = edited_id base i).

(** *** The naming convention as the specification words it *)

Definition stage_labels : list string :=
  ["original"; "ai_spun"; "human_edited"; "final"].

Fixpoint strip_prefix (p s : string) : option string :=
  match p, s with
  | "", _ => Some s
  | String a p', String b s' =>
      if Ascii.eqb a b then strip_prefix p' s' else None
  | String _ _, "" => None
  end.

Definition is_digit (c : ascii) : bool :=
  let n := nat_of_ascii c in ((48 <=? n) && (n <=? 57))%nat.

Fixpoint all_digits (s : string) : bool :=
  match s with
  | "" => true
  | String c s' => is_digit c && all_digits s'
  end.

Definition is_number (s : string) : bool :=
  match s with
  | "" => false
  | _ => all_digits s
  end.

(** [{base}_{stage}[_iter_{n}]]: the base, an underscore, a stage label, and
    then either nothing or [_iter_] followed by a decimal number. *)
Definition spec_id_convention (base content_id : string) : bool :=
  existsb (λ stage,
             match strip_prefix (base +:+ "_" +:+ stage) content_id with
             | Some "" => true
             | Some rest =>
                 match strip_prefix "_iter_" rest with
                 | Some n => is_number n
                 | None => false
                 end
             | None => false
             end) stage_labels.

(** *** What the functions leave in the record *)

(** The milestones of one checkpoint, most recent first, with its result. *)
Inductive checkpoint_outcome (text chapter_id : string)
  : Res (option string) → list Event → Prop :=
| co_accept :
    checkpoint_outcome text chapter_id (Ret (Some text))
      [add_event (chapter_id +:+ "_final") text "final"]
| co_edit edited :
    checkpoint_outcome text chapter_id (Ret (Some edited))
      [add_event (chapter_id +:+ "_human_edited") edited "human_edited"]
| co_reject :
    checkpoint_outcome text chapter_id (Ret None) []
| co_end_of_input :
    checkpoint_outcome text chapter_id (Raise EOFError) [].

Inductive report_milestones : Res unit → list Event → Prop :=
| rm_no_results :
    report_milestones (Ret tt) []
| rm_one_result distance docs :
    (length docs ≤ 1)%nat →
    report_milestones (Ret tt)
      [Print (OutResultHeader 1 distance); Print (OutSnippet docs)]
| rm_index_error :
    report_milestones (Raise IndexError) [].

Inductive pipeline_milestones (base : string) (n : nat)
  : Res unit → list Event → Prop :=
| pm_not_started :
    pipeline_milestones base n (Ret tt) []
| pm_end_of_input text loop :
    loop_milestones base n 1 (Raise EOFError) loop →
    pipeline_milestones base n (Raise EOFError)
      (add_event (original_id base) text "original" :: loop)
| pm_queried text loop r rep :
    loop_milestones base n 1 (Ret tt) loop →
    report_milestones r rep →
    pipeline_milestones base n r
      (add_event (original_id base) text "original"
         :: loop ++ Ext (CollectionQuery search_query default_n_results) :: rep).

(** [w'] is reached from [w] by events whose milestones are [ms]. *)
Definition reaches (E : Env) (w : World) (ms : list Event) (w' : World) : Prop :=
  ∃ new, advances E w new w' ∧ milestones new = ms.

(** The log record of [store_content_in_chroma]: success or failure. *)
Definition store_log (content_id version : string) (lvl : Level) (msg : Msg)
  : Prop :=
  lvl = INFO ∧ msg = MsgStored content_id version ∨
  lvl = ERROR ∧ msg = MsgStoreError content_id.

(** The reading of the write as an upsert: after the call the id holds the
    content and metadata just passed. *)
Definition overwrites (E : Env) (w : World) (content_id content_text version : string)
  : Prop :=
  coll (store_content_in_chroma E content_id content_text version w).2 !! content_id
  = Some (content_text, {| meta_id := content_id; version_type := version |}).

(** The ids of iteration [i]. *)
Definition iteration_id (base : string) (i : nat) (content_id : string) : Prop :=
  content_id = spun_id base i ∨ content_id = final_id base i ∨
  content_id = edited_id base i.

(** The milestones of iterations [i] to [k - 1], all completed. *)
Inductive completed_iterations (base : string) : nat → nat → list Event → Prop :=
| ci_none i :
    completed_iterations base i i []
| ci_more i k text d rest :
    decision_write base i d →
    completed_iterations base (S i) k rest →
    completed_iterations base i k (spun_write base i text :: d :: rest).

(** The log records of a loop left by a falsy checkpoint result. *)
Definition rejections (t : list Event) : list nat :=
  omap (λ e, match e with
             | Log _ (MsgRejectedInIteration i) => Some i
             | _ => None
             end) t.

Definition iterations_started (t : list Event) : list nat :=
  omap (λ e, match e with
             | Log _ (MsgIterationStart i) => Some i
             | _ => None
             end) t.

(** [w'] differs from [w] by nothing the statements about the loop observe,
    except the writes [ws] (most recent first) and the input lines read. *)
Record observed (ws : list (string * string * Meta)) (w w' : World) : Prop := {
  obs_writes : writes (trace w') = ws ++ writes (trace w);
  obs_started : iterations_started (trace w') = iterations_started (trace w);
  obs_rejections : rejections (trace w') = rejections (trace w)
}.

(** *** Notions used by the further properties *)

(** The decision the checkpoint reads from a line. *)
Definition action_of (line : string) : string := Py.strip (Py.lower line).


(** The line that closes an edit. *)
Definition is_sentinel (line : string) : bool :=
  Py.upper (Py.strip line) =? "DONE".

(** [w'] differs from [w] by the writes [ws] (most recent first) and by
    events that are neither writes, queries, nor loop log records. *)
Record effect (E : Env) (ws : list (string * string * Meta)) (w w' : World)
  : Prop := {
  eff_coll : coll w' = replay E ws (coll w);
  eff_writes : writes (trace w') = ws ++ writes (trace w);
  eff_queries : queries (trace w') = queries (trace w);
  eff_started : iterations_started (trace w') = iterations_started (trace w);
  eff_rejections : rejections (trace w') = rejections (trace w)
}.


(** The text [scrape_and_screenshot] extracts from a loaded page. *)
Definition scraped_text (page : Page) : string :=
  Py.join Py.nl
    match primary_paragraphs page with
    | [] => body_paragraphs page
    | _ :: _ => primary_paragraphs page
    end.

(** How often the browser was closed. *)
Definition browser_closes (t : list Event) : nat :=
  length (omap (λ e, match e with
                     | Ext BrowserClose => Some tt
                     | _ => None
                     end) t).

(** A write whose metadata repeats its id and carries the stage label that
    belongs to the id. *)
Definition tagged_write (base : string) (n : nat) (x : string * string * Meta)
  : Prop :=
  meta_id x.2 = x.1.1 ∧
  (x.1.1 = original_id base ∧ version_type x.2 = "original" ∨
   ∃ i : nat, (1 ≤ i ≤ n)%nat ∧
     (x.1.1 = spun_id base i ∧ version_type x.2 = "ai_spun_iter_" +:+ pretty i ∨
      x.1.1 = final_id base i ∧ version_type x.2 = "final" ∨
      x.1.1 = edited_id base i ∧ version_type x.2 = "human_edited")).

(** Only a human edit may be stored with an empty text. *)
Definition nonempty_unless_edited (x : string * string * Meta) : Prop :=
  x.1.2 = "" → version_type x.2 = "human_edited".

(** A text of blanks only. *)
Fixpoint all_space (s : string) : bool :=
  match s with
  | "" => true
  | String c s' => Py.isspace c && all_space s'
  end.

(** *** The output directory *)

(** The calls [ensure_directory] makes to the operating system, on a file
    system of any representation; [None] stands for an OSError. *)
Record OS (FS : Type) := {
  os_path_isfile : FS → string → bool;
  os_path_exists : FS → string → bool;
  os_remove : FS → string → option FS;
  os_makedirs : FS → string → option FS
}.
Arguments os_path_isfile {FS} _ _ _.
Arguments os_path_exists {FS} _ _ _.
Arguments os_remove {FS} _ _ _.
Arguments os_makedirs {FS} _ _ _.

Definition ensure_directory {FS} (os : OS FS) (path : string) (fs : FS)
  : option FS :=
  match (if os_path_isfile os fs path then os_remove os fs path else Some fs) with
  | Some fs1 =>
      if negb (os_path_exists os fs1 path) then os_makedirs os fs1 path
      else Some fs1
  | None => None
  end.

(** What the two modifying calls guarantee when they return. *)
Record OSLaws {FS} (os : OS FS) : Prop := {
  remove_removes : ∀ fs p fs',
    os_remove os fs p = Some fs' → os_path_exists os fs' p = false;
  makedirs_makes : ∀ fs p fs',
    os_makedirs os fs p = Some fs' →
    os_path_exists os fs' p = true ∧ os_path_isfile os fs' p = false
}.

(** A file system without nesting: each path is a file ([true]) or a
    directory ([false]). *)
Definition flat_os : OS (gmap string bool) := {|
  os_path_isfile := λ fs p, bool_decide (fs !! p = Some true);
  os_path_exists := λ fs p, bool_decide (is_Some (fs !! p));
  os_remove := λ fs p,
    if bool_decide (fs !! p = Some true) then Some (delete p fs) else None;
  os_makedirs := λ fs p,
    if bool_decide (is_Some (fs !! p)) then None else Some (<[p := false]> fs)
|}.

(** ** Concrete services, used to run the program on examples *)

Module Demo.

Definition page : Page :=
  {| primary_paragraphs := []; body_paragraphs := ["One"; "Two"] |}.

(** Every service works; the model answers every prompt. *)
Definition env (p : DupPolicy) : Env := {|
  browse := λ _, Loaded page;
  gemini := λ k _, Some ("draft " +:+ pretty k);
  collection_ready := true;
  duplicate_policy := p;
  add_fault := λ _ _ _, false;
  query_fault := λ _ _, false;
  embedding_distance := λ _ d, Z.of_nat (String.length d) # 1
|}.

(** As [env], but the third call of the model (the rewrite of the second
    iteration) fails. *)
Definition env_spin2_fails : Env := {|
  browse := λ _, Loaded page;
  gemini := λ k _, if (k =? 2)%nat then None else Some ("draft " +:+ pretty k);
  collection_ready := true;
  duplicate_policy := IgnoreDuplicate;
  add_fault := λ _ _ _, false;
  query_fault := λ _ _, false;
  embedding_distance := λ _ d, Z.of_nat (String.length d) # 1
|}.

Definition stored_original : Collection :=
  {[ "ch1_original" := ("first text",
                        {| meta_id := "ch1_original"; version_type := "original" |}) ]}.

End Demo.

(** ** Further concrete services *)

Module Cases.

(** A page on which both selectors match. *)
Definition page_both : Page :=
  {| primary_paragraphs := ["Intro"; "Body"];
     body_paragraphs := ["Menu"; "Intro"; "Body"] |}.

Definition env_primary : Env := {|
  browse := λ _, Loaded page_both;
  gemini := λ k _, Some ("draft " +:+ pretty k);
  collection_ready := true;
  duplicate_policy := IgnoreDuplicate;
  add_fault := λ _ _ _, false;
  query_fault := λ _ _, false;
  embedding_distance := λ _ d, Z.of_nat (String.length d) # 1
|}.

(** A page without any paragraph. *)
Definition env_blank_page : Env := {|
  browse := λ _, Loaded {| primary_paragraphs := []; body_paragraphs := [] |};
  gemini := λ k _, Some ("draft " +:+ pretty k);
  collection_ready := true;
  duplicate_policy := IgnoreDuplicate;
  add_fault := λ _ _ _, false;
  query_fault := λ _ _, false;
  embedding_distance := λ _ d, Z.of_nat (String.length d) # 1
|}.

(** The answer of a query without hits. *)
Definition no_hits : QueryResult :=
  {| documents := [[]]; metadatas := [[]]; distances := [[]] |}.

(** A file where the screenshots should go. *)
Definition file_in_the_way : gmap string bool := {[ "screenshots" := true ]}.

End Cases.

(** ** The program on examples *)

Example lower_strip_decision : Py.strip (Py.lower "  AcCept  ") = "accept".
Proof. reflexivity. Qed.

Example strip_upper_sentinel : Py.upper (Py.strip " done ") = "DONE".
Proof. reflexivity. Qed.

Example strip_keeps_inner_blanks : Py.strip (" a b" +:+ Py.nl) = "a b".
Proof. reflexivity. Qed.

Example join_lines : Py.join Py.nl ["a"; "b"; "c"] = "a" +:+ Py.nl +:+ "b" +:+ Py.nl +:+ "c".
Proof. reflexivity. Qed.

Example truthy_cases :
  Py.truthy None = false ∧ Py.truthy (Some "") = false ∧ Py.truthy (Some " ") = true.
Proof. repeat split. Qed.

Example decimal_suffix : "_iter_" +:+ pretty 12%nat = "_iter_12".
Proof. reflexivity. Qed.

(** Two accepted iterations: five writes, then one query and a report of
    one result. *)
Example main_two_accepts :
  let r := main (Demo.env IgnoreDuplicate) (fresh ∅ ["accept"; "ACCEPT"]) in
  r.1 = Ret tt ∧
  write_ids (history r.2)
  = ["gates_of_morning_ch1_original";
     "gates_of_morning_ch1_ai_spun_iter_1";
     "gates_of_morning_ch1_iter_1_final";
     "gates_of_morning_ch1_ai_spun_iter_2";
     "gates_of_morning_ch1_iter_2_final"] ∧
  size (coll r.2) = 5%nat ∧
  queries (history r.2) = [(search_query, 1%nat)] ∧
  result_headers (history r.2) = [1%nat] ∧
  length <$> snippets (history r.2) = [1%nat].
Proof. repeat split; vm_compute; reflexivity. Qed.

(** An invalid decision line is asked again; the end of the input while the
    checkpoint waits is an exception that leaves [main]. *)
Example main_input_ends :
  let r := main (Demo.env IgnoreDuplicate) (fresh ∅ ["maybe"]) in
  r.1 = Raise EOFError ∧
  write_ids (history r.2)
  = ["gates_of_morning_ch1_original"; "gates_of_morning_ch1_ai_spun_iter_1"] ∧
  queries (history r.2) = [].
Proof. repeat split; vm_compute; reflexivity. Qed.

(** ** Properties of the store *)

Section StoreFacts.

Variable E : Env.

Lemma commit_keeps x (c : Collection) id r :
  c !! id = Some r → commit E x c !! id = Some r.
Proof.
  intros Hr. unfold commit, collection_add.
  destruct (add_fault E c x.1.1 x.1.2); [done|].
  destruct (c !! x.1.1) eqn:Hx.
  - by destruct (duplicate_policy E).
  - rewrite lookup_insert_ne; [done|]. intros Heq. rewrite Heq in Hx. congruence.
Qed.

Lemma commit_present x (c : Collection) r :
  c !! x.1.1 = Some r → commit E x c = c.
Proof.
  intros Hr. unfold commit, collection_add.
  destruct (add_fault E c x.1.1 x.1.2); [done|].
  rewrite Hr. by destruct (duplicate_policy E).
Qed.

Lemma commit_absent x (c : Collection) :
  c !! x.1.1 = None → add_fault E c x.1.1 x.1.2 = false →
  commit E x c = <[x.1.1 := (x.1.2, x.2)]> c.
Proof.
  intros Hn Hf. unfold commit, collection_add. by rewrite Hf, Hn.
Qed.

Lemma commit_other x (c : Collection) id :
  id ≠ x.1.1 → commit E x c !! id = c !! id.
Proof.
  intros Hne. unfold commit, collection_add.
  destruct (add_fault E c x.1.1 x.1.2); [done|].
  destruct (c !! x.1.1) eqn:Hx.
  - by destruct (duplicate_policy E).
  - by rewrite lookup_insert_ne.
Qed.

Lemma commit_idem x (c : Collection) : commit E x (commit E x c) = commit E x c.
Proof.
  destruct (c !! x.1.1) as [r|] eqn:Hx.
  - by rewrite !(commit_present x c r Hx).
  - destruct (add_fault E c x.1.1 x.1.2) eqn:Hf.
    + assert (commit E x c = c) as Hc.
      { unfold commit, collection_add. by rewrite Hf. }
      by rewrite !Hc.
    + rewrite (commit_absent x c Hx Hf).
      eapply commit_present. apply lookup_insert_eq.
Qed.

Lemma commit_subseteq x (c : Collection) : c ⊆ commit E x c.
Proof.
  apply map_subseteq_spec. intros id r. apply commit_keeps.
Qed.

Lemma replay_subseteq ws (c : Collection) : c ⊆ replay E ws c.
Proof.
  induction ws as [|x ws IH]; simpl; [done|].
  etrans; [exact IH|]. apply commit_subseteq.
Qed.

(** One call of [store_content_in_chroma]: the request is made, the
    collection moves by [commit], one log record is written, and no
    exception leaves the function. *)
Lemma store_content_in_chroma_run content_id content_text version w :
  ∃ lvl msg,
    store_log content_id version lvl msg ∧
    store_content_in_chroma E content_id content_text version w =
    (Ret tt,
     {| coll := commit E (content_id, content_text,
                          {| meta_id := content_id; version_type := version |})
                  (coll w);
        stdin := stdin w;
        trace := Log lvl msg :: add_event content_id content_text version
                   :: trace w |}).
Proof.
  unfold store_content_in_chroma, try_except, bind, call, log, commit, emit,
    get_coll, put_coll, lift_res, set_coll. simpl.
  destruct (collection_add E (coll w) content_id content_text _) as [c'|e];
    simpl.
  - exists INFO, (MsgStored content_id version). split; [by left|done].
  - exists ERROR, (MsgStoreError content_id). split; [by right|done].
Qed.

End StoreFacts.

Arguments store_content_in_chroma : simpl never.
Arguments emit : simpl never.
Arguments set_stdin : simpl never.

(** ** The store write *)

Lemma coll_store E content_id content_text version w :
  coll (store_content_in_chroma E content_id content_text version w).2 =
  commit E (content_id, content_text,
            {| meta_id := content_id; version_type := version |}) (coll w).
Proof.
  by destruct (store_content_in_chroma_run E content_id content_text version w)
    as (lvl & msg & _ & ->).
Qed.

(** C2, as the code has it.  The write adds the record when the id is free
    and otherwise leaves what is stored untouched; no other id is affected;
    and repeating a write changes nothing more. *)
Theorem store_write_if_absent E content_id content_text version w :
  let m := {| meta_id := content_id; version_type := version |} in
  let w1 := (store_content_in_chroma E content_id content_text version w).2 in
  let w2 := (store_content_in_chroma E content_id content_text version w1).2 in
  (coll w !! content_id = None →
   add_fault E (coll w) content_id content_text = false →
   coll w1 = <[content_id := (content_text, m)]> (coll w)) ∧
  (∀ r, coll w !! content_id = Some r → coll w1 = coll w) ∧
  (∀ other, other ≠ content_id → coll w1 !! other = coll w !! other) ∧
  coll w2 = coll w1.
Proof.
  intros m w1 w2. subst w2 w1. rewrite !coll_store. repeat split.
  - intros Hn Hf. by apply commit_absent.
  - intros r Hr. by eapply commit_present.
  - intros other Hne. by apply commit_other.
  - apply commit_idem.
Qed.

Lemma store_write_if_absent_witness :
  let E := Demo.env IgnoreDuplicate in
  let w := fresh ∅ [] in
  let w1 := (store_content_in_chroma E "ch1_original" "first text" "original" w).2 in
  (coll w !! "ch1_original" = None ∧
   add_fault E (coll w) "ch1_original" "first text" = false) ∧
  coll w1 = Demo.stored_original ∧
  coll (store_content_in_chroma E "ch1_original" "first text" "original" w1).2
  = coll w1.
Proof.
  intros E w w1.
  pose proof (store_write_if_absent E "ch1_original" "first text" "original" w)
    as (Hnew & _ & _ & Hidem).
  split; [split; reflexivity|]. split.
  - exact (Hnew eq_refl eq_refl).
  - exact Hidem.
Defined.

(** C2 as stated fails: a second write under a used id with another content
    does not replace the stored document, whichever way the ChromaDB release
    treats duplicate ids. *)
Lemma store_does_not_overwrite :
  let w := fresh Demo.stored_original [] in
  ¬ overwrites (Demo.env IgnoreDuplicate) w "ch1_original" "second text" "original" ∧
  ¬ overwrites (Demo.env RaiseOnDuplicate) w "ch1_original" "second text" "original".
Proof.
  intros w. unfold overwrites. rewrite !coll_store.
  split; vm_compute; discriminate.
Qed.

(** ** The human checkpoint *)

Section Checkpoint.

Variable E : Env.

Ltac run_store :=
  match goal with
  | |- context [store_content_in_chroma E ?a ?b ?c ?w] =>
      let lvl := fresh "lvl" in
      let msg := fresh "msg" in
      destruct (store_content_in_chroma_run E a b c w) as (lvl & msg & _ & ->)
  end.

(** C6.  On a decision line that reads accept (in any case, with blanks
    around), the checkpoint returns the text it was given and requests
    exactly one write: the text, under [chapter_id_final], tagged final.
    No other id of the collection changes, and the record is there
    afterwards when the id was free. *)
Theorem checkpoint_accept text chapter_id line rest (c : Collection) t :
  Py.strip (Py.lower line) = "accept" →
  let w := {| coll := c; stdin := line :: rest; trace := t |} in
  let id := chapter_id +:+ "_final" in
  let m := {| meta_id := id; version_type := "final" |} in
  let r := human_in_the_loop_feedback E text chapter_id w in
  r.1 = Ret (Some text) ∧
  writes (trace r.2) = (id, text, m) :: writes t ∧
  (∀ other, other ≠ id → coll r.2 !! other = c !! other) ∧
  (c !! id = None → add_fault E c id text = false →
   coll r.2 !! id = Some (text, m)).
Proof.
  intros H w id m r. subst r w.
  unfold human_in_the_loop_feedback, bind, print, emit. simpl.
  rewrite H. simpl. unfold bind, log, emit. simpl.
  run_store. simpl. repeat split.
  - intros other Hne. by apply commit_other.
  - intros Hn Hf. rewrite commit_absent by done. apply lookup_insert_eq.
Qed.

(** C7.  On the decision edit followed by the lines Hello, World, DONE the
    checkpoint returns the two lines joined by a newline and requests
    exactly one write: that text, under [chapter_id_human_edited], tagged
    human_edited. *)
Theorem checkpoint_edit_hello_world text chapter_id rest (c : Collection) t :
  let w := {| coll := c;
              stdin := "edit" :: "Hello" :: "World" :: "DONE" :: rest;
              trace := t |} in
  let id := chapter_id +:+ "_human_edited" in
  let edited := "Hello" +:+ Py.nl +:+ "World" in
  let m := {| meta_id := id; version_type := "human_edited" |} in
  let r := human_in_the_loop_feedback E text chapter_id w in
  r.1 = Ret (Some edited) ∧
  writes (trace r.2) = (id, edited, m) :: writes t ∧
  stdin r.2 = rest ∧
  (∀ other, other ≠ id → coll r.2 !! other = c !! other) ∧
  (c !! id = None → add_fault E c id edited = false →
   coll r.2 !! id = Some (edited, m)).
Proof.
  intros w id edited m r. subst r w.
  unfold human_in_the_loop_feedback, bind, print, emit. simpl.
  unfold bind, log, print, edit_session, emit. simpl.
  run_store. simpl. repeat split.
  - intros other Hne. by apply commit_other.
  - intros Hn Hf. rewrite commit_absent by done. apply lookup_insert_eq.
Qed.

(** C8.  On a decision line that reads reject the checkpoint returns no
    text, requests no write and leaves the collection as it was. *)
Theorem checkpoint_reject text chapter_id line rest (c : Collection) t :
  Py.strip (Py.lower line) = "reject" →
  let w := {| coll := c; stdin := line :: rest; trace := t |} in
  let r := human_in_the_loop_feedback E text chapter_id w in
  r.1 = Ret None ∧
  writes (trace r.2) = writes t ∧
  coll r.2 = c.
Proof.
  intros H w r. subst r w.
  unfold human_in_the_loop_feedback, bind, print, emit. simpl.
  rewrite H. simpl. done.
Qed.

(** An edit closed at once returns the empty text, and stores it. *)
Lemma checkpoint_empty_edit text chapter_id rest (c : Collection) t :
  let w := {| coll := c; stdin := "edit" :: "DONE" :: rest; trace := t |} in
  let id := chapter_id +:+ "_human_edited" in
  let r := human_in_the_loop_feedback E text chapter_id w in
  r.1 = Ret (Some "") ∧
  writes (trace r.2)
  = (id, "", {| meta_id := id; version_type := "human_edited" |}) :: writes t.
Proof.
  intros w id r. subst r w.
  unfold human_in_the_loop_feedback, bind, print, emit. simpl.
  unfold bind, log, print, edit_session, emit. simpl.
  run_store. simpl. done.
Qed.

End Checkpoint.

Lemma checkpoint_accept_witness :
  Py.strip (Py.lower " Accept ") = "accept" ∧
  let r := human_in_the_loop_feedback (Demo.env IgnoreDuplicate)
             "draft 0" "ch1_iter_1" (fresh ∅ [" Accept "; "unread"]) in
  r.1 = Ret (Some "draft 0") ∧
  write_ids (trace r.2) = ["ch1_iter_1_final"] ∧
  stdin r.2 = ["unread"].
Proof.
  split; [reflexivity|].
  pose proof (checkpoint_accept (Demo.env IgnoreDuplicate)
                "draft 0" "ch1_iter_1" " Accept " ["unread"] ∅ [] eq_refl)
    as (Hret & Hw & _).
  split; [exact Hret|]. split.
  - unfold write_ids, fresh. cbv zeta. rewrite Hw. reflexivity.
  - reflexivity.
Defined.

Lemma checkpoint_edit_hello_world_witness :
  let r := human_in_the_loop_feedback (Demo.env IgnoreDuplicate)
             "draft 0" "ch1_iter_1" (fresh ∅ ["edit"; "Hello"; "World"; "DONE"]) in
  r.1 = Ret (Some ("Hello" +:+ Py.nl +:+ "World")) ∧
  coll r.2 !! "ch1_iter_1_human_edited"
  = Some ("Hello" +:+ Py.nl +:+ "World",
          {| meta_id := "ch1_iter_1_human_edited"; version_type := "human_edited" |}).
Proof.
  pose proof (checkpoint_edit_hello_world (Demo.env IgnoreDuplicate)
                "draft 0" "ch1_iter_1" [] ∅ [])
    as (Hret & _ & _ & _ & Hnew).
  split; [exact Hret|]. exact (Hnew eq_refl eq_refl).
Defined.

Lemma checkpoint_reject_witness :
  Py.strip (Py.lower "REJECT  ") = "reject" ∧
  let r := human_in_the_loop_feedback (Demo.env IgnoreDuplicate)
             "draft 0" "ch1_iter_1" (fresh Demo.stored_original ["REJECT  "]) in
  r.1 = Ret None ∧ writes (trace r.2) = [] ∧ coll r.2 = Demo.stored_original.
Proof.
  split; [reflexivity|].
  exact (checkpoint_reject (Demo.env IgnoreDuplicate)
           "draft 0" "ch1_iter_1" "REJECT  " [] Demo.stored_original [] eq_refl).
Defined.

(** ** The fetcher *)

Lemma join_nil sep : Py.join sep [] = "".
Proof. reflexivity. Qed.

Lemma join_singleton sep x : Py.join sep [x] = x.
Proof. reflexivity. Qed.

Lemma join_cons sep x y parts :
  Py.join sep (x :: y :: parts) = x +:+ sep +:+ Py.join sep (y :: parts).
Proof. reflexivity. Qed.

(** C9.  When the primary selector matches nothing on the loaded page, the
    fetcher returns the texts matched by the generic paragraph selector, in
    document order, joined by newlines. *)
Theorem scrape_falls_back_to_body_paragraphs E url output_dir page w :
  browse E url = Loaded page →
  primary_paragraphs page = [] →
  (scrape_and_screenshot E url output_dir w).1
  = Ret (Some (Py.join Py.nl (body_paragraphs page))).
Proof.
  intros Hload Hprimary.
  unfold scrape_and_screenshot, try_except, bind, call, log, emit. simpl.
  rewrite Hload. simpl. by rewrite Hprimary.
Qed.

Lemma scrape_falls_back_witness :
  (browse (Demo.env IgnoreDuplicate) target_url = Loaded Demo.page ∧
   primary_paragraphs Demo.page = []) ∧
  (scrape_and_screenshot (Demo.env IgnoreDuplicate) target_url
     default_output_dir (fresh ∅ [])).1
  = Ret (Some ("One" +:+ Py.nl +:+ "Two")).
Proof.
  split; [split; reflexivity|].
  exact (scrape_falls_back_to_body_paragraphs (Demo.env IgnoreDuplicate)
           target_url default_output_dir Demo.page (fresh ∅ []) eq_refl eq_refl).
Defined.

(** ** What a run leaves in the record *)

Section Reach.
Variable E : Env.

Lemma writes_app a b : writes (a ++ b) = writes a ++ writes b.
Proof. apply omap_app. Qed.

Lemma milestones_app a b : milestones (a ++ b) = milestones a ++ milestones b.
Proof. apply List.filter_app. Qed.

Lemma writes_milestones t : writes (milestones t) = writes t.
Proof.
  induction t as [|e t IH]; [done|].
  destruct e as [l m|o|c]; simpl.
  - destruct m; simpl; auto.
  - destruct o; simpl; auto.
  - destruct c; simpl; auto. by rewrite IH.
Qed.

Lemma reaches_refl w : reaches E w [] w.
Proof. exists []. by split. Qed.

Lemma reaches_trans w ms1 w1 ms2 w2 :
  reaches E w ms1 w1 → reaches E w1 ms2 w2 → reaches E w (ms2 ++ ms1) w2.
Proof.
  intros (n1 & [Ht1 Hc1] & <-) (n2 & [Ht2 Hc2] & <-).
  exists (n2 ++ n1). split; [split|].
  - by rewrite Ht2, Ht1, app_assoc.
  - rewrite Hc2, Hc1, writes_app. unfold replay. by rewrite foldr_app.
  - apply milestones_app.
Qed.

Lemma reaches_after_quiet w w1 ms w2 :
  reaches E w [] w1 → reaches E w1 ms w2 → reaches E w ms w2.
Proof.
  intros H1 H2. rewrite <- (app_nil_r ms). by eapply reaches_trans.
Qed.

Lemma reaches_then_quiet w ms w1 w2 :
  reaches E w ms w1 → reaches E w1 [] w2 → reaches E w ms w2.
Proof. intros H1 H2. by apply (reaches_trans w ms w1 [] w2). Qed.

Lemma reaches_emit_quiet e w0 ms w :
  relevant e = false → reaches E w0 ms w → reaches E w0 ms (emit e w).
Proof.
  intros He (new & [Ht Hc] & <-). exists (e :: new). split; [split|].
  - simpl. by rewrite Ht.
  - simpl. rewrite Hc. f_equal.
    destruct e as [l m|o|c]; try done. by destruct c.
  - simpl. by rewrite He.
Qed.

Lemma reaches_emit e w0 ms w :
  relevant e = true → writes [e] = [] →
  reaches E w0 ms w → reaches E w0 (e :: ms) (emit e w).
Proof.
  intros He Hw (new & [Ht Hc] & <-). exists (e :: new). split; [split|].
  - simpl. by rewrite Ht.
  - change (e :: new) with ([e] ++ new). rewrite writes_app, Hw. exact Hc.
  - simpl. by rewrite He.
Qed.

Lemma reaches_set_stdin l w0 ms w :
  reaches E w0 ms w → reaches E w0 ms (set_stdin l w).
Proof. intros (new & [Ht Hc] & <-). exists new. by split. Qed.

Lemma reaches_store content_id content_text version w0 ms w :
  reaches E w0 ms w →
  reaches E w0 (add_event content_id content_text version :: ms)
    (store_content_in_chroma E content_id content_text version w).2.
Proof.
  intros (new & [Ht Hc] & <-).
  destruct (store_content_in_chroma_run E content_id content_text version w)
    as (lvl & msg & Hq & ->). simpl.
  exists (Log lvl msg :: add_event content_id content_text version :: new).
  split; [split|]; simpl.
  - by rewrite Ht.
  - by rewrite Hc.
  - by destruct Hq as [[-> ->]|[-> ->]].
Qed.

Lemma store_returns content_id content_text version w :
  (store_content_in_chroma E content_id content_text version w).1 = Ret tt.
Proof.
  by destruct (store_content_in_chroma_run E content_id content_text version w)
    as (lvl & msg & _ & ->).
Qed.


Ltac quiet_steps :=
  repeat first
    [ apply reaches_refl
    | apply reaches_set_stdin
    | apply reaches_emit_quiet; [reflexivity|] ].

Lemma ai_spin_chapter_quiet text i w :
  ∃ o w', ai_spin_chapter E text i w = (Ret o, w') ∧ reaches E w [] w'.
Proof.
  unfold ai_spin_chapter. destruct (negb _).
  - eexists _, _. split; [reflexivity|]. apply reaches_refl.
  - unfold try_except, bind, log, ret, generate_content.
    destruct (gemini E _ _); eexists _, _; (split; [reflexivity|]); quiet_steps.
Qed.

Lemma ai_review_chapter_quiet text w :
  ∃ o w', ai_review_chapter E text w = (Ret o, w') ∧ reaches E w [] w'.
Proof.
  unfold ai_review_chapter. destruct (negb _).
  - eexists _, _. split; [reflexivity|]. apply reaches_refl.
  - unfold try_except, bind, log, ret, generate_content.
    destruct (gemini E _ _); eexists _, _; (split; [reflexivity|]); quiet_steps.
Qed.

Lemma scrape_and_screenshot_quiet url dir w :
  ∃ o w', scrape_and_screenshot E url dir w = (Ret o, w') ∧ reaches E w [] w'.
Proof.
  unfold scrape_and_screenshot, try_except, bind, log, ret, raise, call.
  destruct (browse E url); eexists _, _; (split; [reflexivity|]); quiet_steps.
Qed.

Lemma read_edits_quiet pending :
  ∀ acc w, ∃ r w',
    read_edits pending acc w = (r, w') ∧ reaches E w [] w' ∧
    (r = Raise EOFError ∨ ∃ l, r = Ret l).
Proof.
  induction pending as [|line rest IH]; intros acc w; simpl.
  - eexists _, _. split; [reflexivity|]. split; [quiet_steps|by left].
  - destruct (_ =? _).
    + eexists _, _. split; [reflexivity|]. split; [quiet_steps|eauto].
    + destruct (IH (acc ++ [line]) (emit (Ext (Input "" line)) (set_stdin rest w)))
        as (r & w' & -> & Hr & Hres).
      eexists _, _. split; [reflexivity|]. split; [|done].
      eapply reaches_after_quiet; [|exact Hr]. quiet_steps.
Qed.

Lemma await_decision_outcome text chapter_id pending :
  ∀ w, ∃ r w' ms,
    await_decision E pending text chapter_id w = (r, w') ∧
    reaches E w ms w' ∧ checkpoint_outcome text chapter_id r ms.
Proof.
  induction pending as [|line rest IH]; intros w; simpl.
  - eexists _, _, _. split; [reflexivity|]. split; [quiet_steps|constructor].
  - set (w1 := emit _ (set_stdin rest w)).
    assert (reaches E w [] w1) as Hw1 by (subst w1; quiet_steps).
    destruct (_ =? "accept").
    { unfold bind, log, ret.
      set (w2 := emit _ w1).
      pose proof (store_returns (chapter_id +:+ "_final") text "final" w2) as Hret.
      pose proof (reaches_store (chapter_id +:+ "_final") text "final" w [] w2) as Hst.
      destruct (store_content_in_chroma E _ _ _ w2) as [r w3]. simpl in *. subst r.
      eexists _, _, _. split; [reflexivity|]. split; [|constructor].
      apply Hst. subst w2. quiet_steps. }
    destruct (_ =? "edit").
    { unfold bind, log, ret, print, edit_session.
      set (w2 := emit _ w1).
      destruct (read_edits_quiet (stdin w2) [] w2) as (r & w3 & -> & Hr & [->|[l ->]]).
      - eexists _, _, _. split; [reflexivity|]. split; [|constructor].
        eapply reaches_after_quiet; [|exact Hr]. subst w2. quiet_steps.
      - set (w4 := emit _ w3).
        pose proof (store_returns (chapter_id +:+ "_human_edited") (Py.join Py.nl l) "human_edited" w4) as Hret.
        pose proof (reaches_store (chapter_id +:+ "_human_edited") (Py.join Py.nl l) "human_edited" w [] w4) as Hst.
        destruct (store_content_in_chroma E _ _ _ w4) as [r w5]. simpl in *. subst r.
        eexists _, _, _. split; [reflexivity|]. split; [|constructor].
        quiet_steps. apply Hst. subst w4. quiet_steps.
        eapply reaches_after_quiet; [|exact Hr]. subst w2. quiet_steps. }
    destruct (_ =? "reject").
    { unfold bind, log, ret. eexists _, _, _. split; [reflexivity|].
      split; [|constructor]. quiet_steps. }
    unfold bind, print.
    destruct (IH (emit (Print (OutText "Invalid input. Please enter 'accept', 'edit', or 'reject'.")) w1))
      as (r & w' & ms & -> & Hr & Ho).
    eexists _, _, _. split; [reflexivity|]. split; [|exact Ho].
    eapply reaches_after_quiet; [|exact Hr]. quiet_steps.
Qed.


Lemma human_in_the_loop_feedback_outcome text chapter_id w :
  ∃ r w' ms,
    human_in_the_loop_feedback E text chapter_id w = (r, w') ∧
    reaches E w ms w' ∧ checkpoint_outcome text chapter_id r ms.
Proof.
  unfold human_in_the_loop_feedback, bind, print.
  match goal with |- context [await_decision E ?p _ _ ?w1] =>
    destruct (await_decision_outcome text chapter_id p w1)
      as (r & w' & ms & -> & Hr & Ho) end.
  eexists _, _, _. split; [reflexivity|]. split; [|exact Ho].
  eapply reaches_after_quiet; [|exact Hr]. quiet_steps.
Qed.

Lemma show_feedback_quiet (ai_review_feedback : option string) w :
  ∃ w',
    (if Py.truthy ai_review_feedback then
       print (Py.nl +:+ "--- AI Reviewer Feedback ---");;;
       print (default "" ai_review_feedback);;;
       print ("----------------------------" +:+ Py.nl)
     else ret tt) w = (Ret tt, w') ∧
    reaches E w [] w'.
Proof.
  destruct (Py.truthy ai_review_feedback).
  - unfold bind, print. eexists. split; [reflexivity|]. quiet_steps.
  - eexists. split; [reflexivity|]. quiet_steps.
Qed.

Lemma iterations_S base todo i cur :
  iterations E base (S todo) i cur =
  (log INFO (MsgIterationStart i);;;
   let* ai_spun_text := ai_spin_chapter E cur i in
   if negb (Py.truthy ai_spun_text) then
     log ERROR (MsgSpinFailed i)
   else
     let ai_spun_text := default "" ai_spun_text in
     store_content_in_chroma E (base +:+ "_ai_spun_iter_" +:+ pretty i)
       ai_spun_text ("ai_spun_iter_" +:+ pretty i);;;
     let* ai_review_feedback := ai_review_chapter E ai_spun_text in
     (if Py.truthy ai_review_feedback then
        print (Py.nl +:+ "--- AI Reviewer Feedback ---");;;
        print (default "" ai_review_feedback);;;
        print ("----------------------------" +:+ Py.nl)
      else ret tt);;;
     let* human_decision_text :=
       human_in_the_loop_feedback E ai_spun_text (base +:+ "_iter_" +:+ pretty i) in
     if Py.truthy human_decision_text then
       iterations E base todo (S i) (default "" human_decision_text)
     else
       log WARNING (MsgRejectedInIteration i)).
Proof. reflexivity. Qed.

Lemma iterations_milestones base todo :
  ∀ i cur w, ∃ r w' ms,
    iterations E base todo i cur w = (r, w') ∧
    reaches E w ms w' ∧ loop_milestones base todo i r (rev ms).
Proof.
  induction todo as [|todo IH]; intros i cur w.
  { eexists _, _, _. split; [reflexivity|]. split; [apply reaches_refl|constructor]. }
  rewrite iterations_S. unfold bind at 1. unfold log at 1.
  unfold bind at 1.
  destruct (ai_spin_chapter_quiet cur i (emit (Log INFO (MsgIterationStart i)) w))
    as (o & w1 & -> & H1).
  assert (reaches E w [] w1) as Hw1.
  { eapply reaches_after_quiet; [|exact H1]. quiet_steps. }
  clear H1.
  destruct (Py.truthy o) eqn:Ho; cbn [negb].
  2:{ eexists _, _, _. split; [reflexivity|]. split.
      - apply reaches_emit; [reflexivity..|exact Hw1].
      - constructor. }
  destruct o as [spun|]; [|done]. cbn [default from_option id].
  unfold bind at 1.
  pose proof (store_returns (base +:+ "_ai_spun_iter_" +:+ pretty i) spun
                ("ai_spun_iter_" +:+ pretty i) w1) as Hret.
  pose proof (reaches_store (base +:+ "_ai_spun_iter_" +:+ pretty i) spun
                ("ai_spun_iter_" +:+ pretty i) w [] w1 Hw1) as Hw2.
  destruct (store_content_in_chroma E _ _ _ w1) as [r2 w2].
  simpl in Hret, Hw2. subst r2.
  unfold bind at 1.
  destruct (ai_review_chapter_quiet spun w2) as (fb & w3 & -> & H3).
  unfold bind at 1.
  destruct (show_feedback_quiet fb w3) as (w4 & -> & H4).
  unfold bind at 1.
  destruct (human_in_the_loop_feedback_outcome spun (base +:+ "_iter_" +:+ pretty i) w4)
    as (r & w5 & ms & -> & H5 & Hout).
  assert (reaches E w (ms ++ [spun_write base i spun]) w5) as Hw5.
  { eapply reaches_trans; [exact Hw2|].
    eapply reaches_after_quiet; [exact H3|].
    eapply reaches_after_quiet; [exact H4|]. exact H5. }
  clear Hw1 Hw2 H3 H4 H5.
  inversion Hout; subst.
  - (* accept *)
    rewrite Ho. cbn [default from_option id].
    destruct (IH (S i) spun w5) as (r' & w6 & ms' & -> & H6 & Hloop).
    eexists _, _, _. split; [reflexivity|]. split.
    + eapply reaches_trans; [exact Hw5|exact H6].
    + rewrite rev_app_distr. simpl.
      eapply lm_next; [apply dw_final|exact Hloop].
  - (* edit *)
    destruct edited as [|c edited].
    + eexists _, _, _. split; [reflexivity|]. split.
      * apply reaches_emit_quiet; [reflexivity|exact Hw5].
      * apply lm_empty_edit.
    + cbn [Py.truthy default from_option id].
      destruct (IH (S i) (String c edited) w5) as (r' & w6 & ms' & -> & H6 & Hloop).
      eexists _, _, _. split; [reflexivity|]. split.
      * eapply reaches_trans; [exact Hw5|exact H6].
      * rewrite rev_app_distr. simpl.
        eapply lm_next; [apply dw_edited|exact Hloop].
  - (* reject *)
    eexists _, _, _. split; [reflexivity|]. split.
    + apply reaches_emit_quiet; [reflexivity|exact Hw5].
    + apply lm_rejected.
  - (* end of input *)
    eexists _, _, _. split; [reflexivity|]. split; [exact Hw5|].
    apply lm_end_of_input.
Qed.


Lemma coll_emit e w : coll (emit e w) = coll w.
Proof. reflexivity. Qed.

Lemma reaches_coll w ms w' :
  reaches E w ms w' → coll w' = replay E (writes ms) (coll w).
Proof. intros (new & [_ Hc] & <-). by rewrite writes_milestones. Qed.

Lemma nearest_nil (c : Collection) q : nearest E c q = [] → c = ∅.
Proof.
  unfold nearest. intros H%fmap_nil_inv.
  apply map_to_list_empty_iff, Permutation_nil_r.
  rewrite <- H. symmetry. apply merge_sort_Permutation.
Qed.

Lemma semantic_search_chroma_result q n w :
  ∃ o w',
    semantic_search_chroma E q n w = (Ret o, w') ∧
    reaches E w [Ext (CollectionQuery q n)] w' ∧
    (o = None ∨
     ∃ hits, hits = take n (nearest E (coll w) q) ∧
       o = Some {| documents := [hit_doc <$> hits];
                   metadatas := [hit_meta <$> hits];
                   distances := [hit_distance <$> hits] |}).
Proof.
  unfold semantic_search_chroma, try_except, bind, call, log, ret, get_coll,
    lift_res, collection_query.
  rewrite !coll_emit.
  destruct (query_fault E (coll w) q).
  - eexists _, _. split; [reflexivity|]. split; [|by left].
    quiet_steps. apply reaches_emit; [reflexivity..|]. quiet_steps.
  - eexists _, _. split; [reflexivity|]. split; [|right; eauto].
    quiet_steps. apply reaches_emit; [reflexivity..|]. quiet_steps.
Qed.

Lemma report_none w :
  ∃ w', report None w = (Ret tt, w') ∧ reaches E w [] w'.
Proof. eexists. split; [reflexivity|]. unfold print. quiet_steps. Qed.

Lemma report_hits (hits : list Hit) w :
  (length hits ≤ 1)%nat →
  ∃ r w' ms,
    report (Some {| documents := [hit_doc <$> hits];
                    metadatas := [hit_meta <$> hits];
                    distances := [hit_distance <$> hits] |}) w = (r, w') ∧
    reaches E w ms w' ∧ report_milestones r (rev ms) ∧
    (r = Raise IndexError → hits = []).
Proof.
  intros Hlen. unfold report. cbn [documents].
  unfold bind at 1. unfold print at 1.
  cbn [print_results]. unfold bind at 1. unfold first_of at 1.
  cbn [metadatas lookup list_lookup].
  destruct hits as [|h hits]; cbn [fmap list_fmap].
  - unfold raise. eexists _, _, _. split; [reflexivity|].
    split; [quiet_steps|]. split; [constructor|done].
  - destruct hits; [|simpl in Hlen; lia].
    unfold ret at 1. unfold bind at 1. unfold first_of at 1.
    cbn [distances lookup list_lookup fmap list_fmap]. unfold ret at 1.
    unfold bind, print, print_out, ret.
    eexists _, _, _. split; [reflexivity|]. split; [|split; [|done]].
    + quiet_steps. apply reaches_emit; [reflexivity..|]. quiet_steps.
      apply reaches_emit; [reflexivity..|]. quiet_steps.
    + simpl. by constructor.
Qed.

Lemma loop_milestones_result base todo i r ms :
  loop_milestones base todo i r ms → r = Ret tt ∨ r = Raise EOFError.
Proof. induction 1; auto. Qed.

Lemma pipeline_run url base n w :
  ∃ r w' ms,
    pipeline E url base n w = (r, w') ∧
    reaches E w ms w' ∧ pipeline_milestones base n r (rev ms) ∧
    (r = Raise IndexError → coll w' = ∅).
Proof.
  unfold pipeline. destruct (collection_ready E); cbn [negb].
  2:{ eexists _, _, _. split; [reflexivity|].
      split; [unfold log; quiet_steps|]. split; [constructor|done]. }
  unfold bind at 1. unfold log at 1. unfold bind at 1.
  destruct (scrape_and_screenshot_quiet url default_output_dir
              (emit (Log INFO (MsgCollectionReady COLLECTION_NAME)) w))
    as (o & w1 & -> & H1).
  assert (reaches E w [] w1) as Hw1.
  { eapply reaches_after_quiet; [|exact H1]. quiet_steps. }
  clear H1.
  destruct (Py.truthy o) eqn:Ho; cbn [negb].
  2:{ eexists _, _, _. split; [reflexivity|].
      split; [unfold log; quiet_steps; exact Hw1|]. split; [constructor|done]. }
  destruct o as [original|]; [|done]. cbn [default from_option id].
  unfold bind at 1.
  pose proof (store_returns (base +:+ "_original") original "original" w1) as Hret.
  pose proof (reaches_store (base +:+ "_original") original "original" w [] w1 Hw1)
    as Hw2.
  destruct (store_content_in_chroma E _ _ _ w1) as [r2 w2].
  simpl in Hret, Hw2. subst r2.
  unfold bind at 1.
  destruct (iterations_milestones base n 1 original w2)
    as (r & w3 & ms & -> & H3 & Hloop).
  assert (reaches E w (ms ++ [add_event (original_id base) original "original"]) w3)
    as Hw3 by (eapply reaches_trans; [exact Hw2|exact H3]).
  clear Hw1 Hw2 H3.
  destruct (loop_milestones_result _ _ _ _ _ Hloop) as [-> | ->].
  2:{ eexists _, _, _. split; [reflexivity|]. split; [exact Hw3|].
      split; [|done]. rewrite rev_app_distr. simpl. by constructor. }
  unfold bind at 1. unfold print at 1. unfold bind at 1.
  destruct (semantic_search_chroma_result search_query default_n_results
              (emit (Print (OutText (Py.nl +:+ "--- Demonstrating Semantic Search ---"))) w3))
    as (o & w4 & -> & H4 & Hres).
  assert (reaches E w
            (Ext (CollectionQuery search_query default_n_results)
               :: ms ++ [add_event (original_id base) original "original"]) w4)
    as Hw4.
  { change (?x :: ?l) with ([x] ++ l).
    eapply reaches_trans; [|exact H4]. quiet_steps. exact Hw3. }
  assert (coll w4 = coll w3) as Hc4 by (by rewrite (reaches_coll _ _ _ H4)).
  clear H4.
  unfold bind at 1.
  destruct Hres as [-> | (hits & Hhits & ->)].
  - destruct (report_none w4) as (w5 & -> & H5).
    unfold log. eexists _, _, _. split; [reflexivity|]. split; [|split; [|done]].
    + quiet_steps. eapply reaches_then_quiet; [exact Hw4|exact H5].
    + simpl. rewrite rev_app_distr. simpl.
      apply (pm_queried base n original (rev ms) (Ret tt) []); [done|constructor].
  - destruct (report_hits hits w4) as (r & w5 & ms5 & -> & H5 & Hrep & Hcrash).
    { rewrite Hhits, length_take. unfold default_n_results. lia. }
    assert (reaches E w
              (ms5 ++ Ext (CollectionQuery search_query default_n_results)
                 :: ms ++ [add_event (original_id base) original "original"]) w5)
      as Hw5 by (eapply reaches_trans; [exact Hw4|exact H5]).
    assert (pipeline_milestones base n r
              (rev (ms5 ++ Ext (CollectionQuery search_query default_n_results)
                      :: ms ++ [add_event (original_id base) original "original"])))
      as Hpm.
    { rewrite rev_app_distr. simpl. rewrite rev_app_distr. simpl.
      rewrite <- !app_assoc. simpl.
      by apply (pm_queried base n original (rev ms) r (rev ms5)). }
    destruct r as [[]|e].
    + unfold log. eexists _, _, _. split; [reflexivity|].
      split; [|split; [exact Hpm|done]]. quiet_steps. exact Hw5.
    + eexists _, _, _. split; [reflexivity|].
      split; [exact Hw5|]. split; [exact Hpm|].
      intros He. specialize (Hcrash He). injection He as ->.
      assert (ms5 = []) as ->.
      { inversion Hrep as [| |Hr Hms5].
        apply (f_equal (@rev Event)) in Hms5.
        by rewrite rev_involutive in Hms5. }
      rewrite (reaches_coll _ _ _ H5), Hc4. simpl.
      apply (nearest_nil _ search_query).
      rewrite Hcrash, coll_emit in Hhits. unfold default_n_results in Hhits.
      by destruct (nearest E (coll w3) search_query).
Qed.

End Reach.

(** ** Identifiers *)

Section Ids.

Lemma app_String a s t : String a s +:+ t = String a (s +:+ t).
Proof. reflexivity. Qed.

Lemma string_app_assoc a b c : (a +:+ b) +:+ c = a +:+ (b +:+ c).
Proof. induction a as [|x a IH]; [done|]. by rewrite !app_String, IH. Qed.

Lemma chars_app a b :
  list_ascii_of_string (a +:+ b)
  = list_ascii_of_string a ++ list_ascii_of_string b.
Proof. induction a as [|x a IH]; [done|]. rewrite app_String. simpl. by rewrite IH. Qed.

Lemma chars_inj a b : list_ascii_of_string a = list_ascii_of_string b → a = b.
Proof.
  intros H. rewrite <- (string_of_list_ascii_of_string a),
    <- (string_of_list_ascii_of_string b). by rewrite H.
Qed.

Lemma string_app_inv_tail a b t : a +:+ t = b +:+ t → a = b.
Proof.
  intros H. apply chars_inj. apply (f_equal list_ascii_of_string) in H.
  rewrite !chars_app in H. by apply app_inv_tail in H.
Qed.

(** The last character decides between the two checkpoint suffixes. *)
Lemma final_ne_edited a b : a +:+ "_final" ≠ b +:+ "_human_edited".
Proof.
  intros H. apply (f_equal list_ascii_of_string) in H.
  rewrite !chars_app in H.
  change (list_ascii_of_string "_final")
    with (list_ascii_of_string "_fina" ++ ["l"%char]) in H.
  change (list_ascii_of_string "_human_edited")
    with (list_ascii_of_string "_human_edite" ++ ["d"%char]) in H.
  rewrite !app_assoc in H. apply app_inj_tail in H as [_ H]. discriminate.
Qed.

Variable base : string.

Lemma spun_id_inj i j : spun_id base i = spun_id base j → i = j.
Proof.
  unfold spun_id. intros H%(inj (String.app base)).
  rewrite !app_String in H. by simplify_eq.
Qed.

Lemma final_id_inj i j : final_id base i = final_id base j → i = j.
Proof.
  unfold final_id, checkpoint_id. intros H%string_app_inv_tail%(inj (String.app base)).
  rewrite !app_String in H. by simplify_eq.
Qed.

Lemma edited_id_inj i j : edited_id base i = edited_id base j → i = j.
Proof.
  unfold edited_id, checkpoint_id. intros H%string_app_inv_tail%(inj (String.app base)).
  rewrite !app_String in H. by simplify_eq.
Qed.

Lemma final_id_ne_edited_id i j : final_id base i ≠ edited_id base j.
Proof. apply final_ne_edited. Qed.

Lemma spun_id_ne_final_id i j : spun_id base i ≠ final_id base j.
Proof.
  unfold spun_id, final_id, checkpoint_id. rewrite string_app_assoc.
  intros H%(inj (String.app base)). rewrite !app_String in H. discriminate.
Qed.

Lemma spun_id_ne_edited_id i j : spun_id base i ≠ edited_id base j.
Proof.
  unfold spun_id, edited_id, checkpoint_id. rewrite string_app_assoc.
  intros H%(inj (String.app base)). rewrite !app_String in H. discriminate.
Qed.

Lemma original_id_ne_spun_id i : original_id base ≠ spun_id base i.
Proof.
  unfold original_id, spun_id.
  intros H%(inj (String.app base)). rewrite !app_String in H. discriminate.
Qed.

Lemma original_id_ne_final_id i : original_id base ≠ final_id base i.
Proof.
  unfold original_id, final_id, checkpoint_id. rewrite string_app_assoc.
  intros H%(inj (String.app base)). rewrite !app_String in H. discriminate.
Qed.

Lemma original_id_ne_edited_id i : original_id base ≠ edited_id base i.
Proof.
  unfold original_id, edited_id, checkpoint_id. rewrite string_app_assoc.
  intros H%(inj (String.app base)). rewrite !app_String in H. discriminate.
Qed.

End Ids.

(** ** The writes and queries of the loop *)

Section Records.

Lemma writes_rev t : writes (rev t) = rev (writes t).
Proof.
  unfold writes. induction t as [|e t IH]; [done|].
  simpl. rewrite omap_app, IH. simpl.
  destruct (match e with Ext (CollectionAdd i d m) => Some (i, d, m) | _ => None end);
    simpl; [done|by rewrite app_nil_r].
Qed.

Lemma fmap_rev {A B} (f : A → B) l : f <$> rev l = rev (f <$> l).
Proof. apply List.map_rev. Qed.

Lemma write_ids_app a b : write_ids (a ++ b) = write_ids a ++ write_ids b.
Proof. unfold write_ids. by rewrite writes_app, fmap_app. Qed.

Lemma write_ids_milestones t : write_ids (milestones t) = write_ids t.
Proof. unfold write_ids. by rewrite writes_milestones. Qed.

Lemma queries_milestones t : queries (milestones t) = queries t.
Proof.
  induction t as [|e t IH]; [done|].
  destruct e as [l m|o|c]; simpl.
  - destruct m; simpl; auto.
  - destruct o; simpl; auto.
  - destruct c; simpl; auto. by rewrite IH.
Qed.

Lemma result_headers_milestones t :
  result_headers (milestones t) = result_headers t.
Proof.
  induction t as [|e t IH]; [done|].
  destruct e as [l m|o|c]; simpl.
  - destruct m; simpl; auto.
  - destruct o; simpl; auto. by rewrite IH.
  - destruct c; simpl; auto.
Qed.

Lemma snippets_milestones t : snippets (milestones t) = snippets t.
Proof.
  induction t as [|e t IH]; [done|].
  destruct e as [l m|o|c]; simpl.
  - destruct m; simpl; auto.
  - destruct o; simpl; auto. by rewrite IH.
  - destruct c; simpl; auto.
Qed.

Lemma decision_write_id base i d :
  decision_write base i d →
  ∃ content_id, write_ids [d] = [content_id] ∧
    (content_id = final_id base i ∨ content_id = edited_id base i) ∧
    queries [d] = [] ∧ result_headers [d] = [] ∧ snippets [d] = [].
Proof. intros [text|text]; eexists; (split; [reflexivity|]); auto. Qed.

(** The loop writes only the ids of its own iterations. *)
Lemma loop_write_ids base todo i r l :
  loop_milestones base todo i r l →
  Forall (λ content_id, ∃ j, (i ≤ j < i + todo)%nat ∧ iteration_id base j content_id)
    (write_ids l).
Proof.
  induction 1 as [i|todo i|todo i text|todo i text|todo i text
                 |todo i text d r rest Hd Hrest IH].
  - constructor.
  - constructor.
  - repeat constructor. exists i. split; [lia|by left].
  - repeat constructor. exists i. split; [lia|by left].
  - repeat constructor; exists i; (split; [lia|]); unfold iteration_id; auto.
  - destruct (decision_write_id base i d Hd) as (did & Hdid & Hshape & _).
    change (spun_write base i text :: d :: rest)
      with ([spun_write base i text] ++ [d] ++ rest).
    rewrite !write_ids_app, Hdid. simpl.
    constructor; [exists i; split; [lia|by left]|].
    constructor.
    { exists i. split; [lia|]. unfold iteration_id. tauto. }
    eapply Forall_impl; [exact IH|].
    intros x (j & Hj & Hx). exists j. split; [lia|done].
Qed.

Lemma iteration_id_index base i j content_id :
  iteration_id base i content_id → iteration_id base j content_id → i = j.
Proof.
  intros [-> | [-> | ->]] [H | [H | H]].
  - by apply spun_id_inj in H.
  - by apply spun_id_ne_final_id in H.
  - by apply spun_id_ne_edited_id in H.
  - symmetry in H. by apply spun_id_ne_final_id in H.
  - by apply final_id_inj in H.
  - by apply final_id_ne_edited_id in H.
  - symmetry in H. by apply spun_id_ne_edited_id in H.
  - symmetry in H. by apply final_id_ne_edited_id in H.
  - by apply edited_id_inj in H.
Qed.

Lemma loop_write_ids_later base todo i r l content_id :
  loop_milestones base todo (S i) r l →
  iteration_id base i content_id → content_id ∉ write_ids l.
Proof.
  intros Hloop Hid Hin.
  pose proof (loop_write_ids _ _ _ _ _ Hloop) as Hall.
  rewrite Forall_forall in Hall.
  destruct (Hall _ Hin) as (j & Hj & Hid').
  pose proof (iteration_id_index _ _ _ _ Hid Hid'). lia.
Qed.

(** No id is written twice by the loop. *)
Lemma loop_write_ids_nodup base todo i r l :
  loop_milestones base todo i r l → NoDup (write_ids l).
Proof.
  induction 1 as [i|todo i|todo i text|todo i text|todo i text
                 |todo i text d r rest Hd Hrest IH].
  - constructor.
  - constructor.
  - apply NoDup_singleton.
  - apply NoDup_singleton.
  - simpl. apply NoDup_cons. split; [|apply NoDup_singleton].
    intros Hin%list_elem_of_singleton. by apply spun_id_ne_edited_id in Hin.
  - destruct (decision_write_id base i d Hd) as (did & Hdid & Hshape & _).
    change (spun_write base i text :: d :: rest)
      with ([spun_write base i text] ++ [d] ++ rest).
    rewrite !write_ids_app, Hdid. simpl.
    apply NoDup_cons. split.
    { intros [Hin|Hin]%elem_of_cons.
      - destruct Hshape as [-> | ->].
        + by apply spun_id_ne_final_id in Hin.
        + by apply spun_id_ne_edited_id in Hin.
      - revert Hin. eapply loop_write_ids_later; [exact Hrest|by left]. }
    apply NoDup_cons. split; [|exact IH].
    eapply loop_write_ids_later; [exact Hrest|].
    unfold iteration_id. tauto.
Qed.

Lemma loop_quiet_queries base todo i r l :
  loop_milestones base todo i r l →
  queries l = [] ∧ result_headers l = [] ∧ snippets l = [].
Proof.
  induction 1 as [i|todo i|todo i text|todo i text|todo i text
                 |todo i text d r rest Hd Hrest IH]; try done.
  destruct (decision_write_id base i d Hd) as (did & _ & _ & Hq & Hh & Hs).
  destruct IH as (IHq & IHh & IHs).
  change (spun_write base i text :: d :: rest)
    with ([spun_write base i text] ++ [d] ++ rest).
  unfold queries, result_headers, snippets in *.
  rewrite !omap_app, Hq, Hh, Hs, IHq, IHh, IHs. done.
Qed.

Lemma report_quiet_writes r rep :
  report_milestones r rep → write_ids rep = [] ∧ queries rep = [].
Proof. by intros []. Qed.

End Records.

(** ** Whole runs *)

Section Runs.

Variable E : Env.

Lemma milestones_rev t : milestones (rev t) = rev (milestones t).
Proof. apply List.filter_rev. Qed.

Lemma run_record url base n (c : Collection) lines :
  let r := pipeline E url base n (fresh c lines) in
  pipeline_milestones base n r.1 (milestones (history r.2)) ∧
  coll r.2 = replay E (writes (trace r.2)) c ∧
  (r.1 = Raise IndexError → coll r.2 = ∅).
Proof.
  intros r. subst r.
  destruct (pipeline_run E url base n (fresh c lines))
    as (r & w' & ms & -> & (new & [Ht Hc] & Hms) & Hpm & Hcrash).
  simpl in *. rewrite app_nil_r in Ht. subst new.
  unfold history. rewrite milestones_rev, Hms. done.
Qed.

Lemma completed_iterations_le base i k l :
  completed_iterations base i k l → (i ≤ k)%nat.
Proof. induction 1; lia. Qed.

Lemma loop_spin_failure base todo i r l k :
  loop_milestones base todo i r l →
  In (Log ERROR (MsgSpinFailed k)) l →
  r = Ret tt ∧
  ∃ finished, completed_iterations base i k finished ∧
    l = finished ++ [Log ERROR (MsgSpinFailed k)].
Proof.
  induction 1 as [i|todo i|todo i text|todo i text|todo i text
                 |todo i text d r rest Hd Hrest IH]; intros Hin.
  - destruct Hin.
  - destruct Hin as [Heq|[]]. injection Heq as ->.
    split; [done|]. exists []. split; [constructor|done].
  - destruct Hin as [Heq|[]]. discriminate.
  - destruct Hin as [Heq|[]]. discriminate.
  - destruct Hin as [Heq|[Heq|[]]]; discriminate.
  - destruct Hin as [Heq|[Heq|Hin]].
    + discriminate.
    + destruct Hd; discriminate.
    + destruct (IH Hin) as (-> & finished & Hfin & ->).
      split; [done|]. exists (spun_write base i text :: d :: finished).
      split; [by constructor|done].
Qed.

Lemma dom_commit x (c : Collection) :
  add_fault E c x.1.1 x.1.2 = false →
  dom (commit E x c) = dom c ∪ {[ x.1.1 ]}.
Proof.
  intros Hf. destruct (c !! x.1.1) as [r|] eqn:Hx.
  - rewrite (commit_present E x c r Hx).
    assert (x.1.1 ∈ dom c) by (apply elem_of_dom; eauto). set_solver.
  - rewrite (commit_absent E x c Hx Hf), dom_insert_L. set_solver.
Qed.

Lemma dom_replay ws (c : Collection) :
  (∀ c' i d, add_fault E c' i d = false) →
  dom (replay E ws c) = dom c ∪ list_to_set ((λ x, x.1.1) <$> ws).
Proof.
  intros Hf. induction ws as [|x ws IH]; simpl.
  - set_solver.
  - rewrite dom_commit by apply Hf. rewrite IH. set_solver.
Qed.

End Runs.

(** ** Properties of every run *)

Section Claims.

Variable E : Env.

Lemma pipeline_write_ids base n r l :
  pipeline_milestones base n r l →
  Forall (written_id base n) (write_ids l) ∧ NoDup (write_ids l).
Proof.
  assert (∀ loop r', loop_milestones base n 1 r' loop →
            Forall (written_id base n) (write_ids loop)) as Hshape.
  { intros loop r' Hloop. eapply Forall_impl; [by eapply loop_write_ids|].
    intros x (j & Hj & Hx). right. exists j. split; [lia|exact Hx]. }
  assert (∀ loop r', loop_milestones base n 1 r' loop →
            original_id base ∉ write_ids loop) as Hfresh.
  { intros loop r' Hloop Hin.
    pose proof (loop_write_ids _ _ _ _ _ Hloop) as Hall.
    rewrite Forall_forall in Hall.
    destruct (Hall _ Hin) as (j & _ & [H|[H|H]]).
    - by apply original_id_ne_spun_id in H.
    - by apply original_id_ne_final_id in H.
    - by apply original_id_ne_edited_id in H. }
  intros [|text loop Hloop|text loop r' rep Hloop Hrep].
  - split; constructor.
  - change (?x :: loop) with ([x] ++ loop). rewrite write_ids_app. simpl. split.
    + constructor; [by left|by eapply Hshape].
    + apply NoDup_cons. split; [by eapply Hfresh|by eapply loop_write_ids_nodup].
  - destruct (report_quiet_writes _ _ Hrep) as [Hw _].
    change (?x :: loop ++ ?q :: rep) with ([x] ++ loop ++ [q] ++ rep).
    rewrite !write_ids_app, Hw. simpl. rewrite ?app_nil_r. split.
    + constructor; [by left|by eapply Hshape].
    + apply NoDup_cons. split; [by eapply Hfresh|by eapply loop_write_ids_nodup].
Qed.

(** C3, as the code has it.  Every id a run writes is the original id
    [base_original], a rewrite id [base_ai_spun_iter_i], or a checkpoint id
    [base_iter_i_final] or [base_iter_i_human_edited], for an iteration
    index [i] between 1 and the number of iterations.  The checkpoint ids
    carry the iteration before the stage label. *)
Theorem written_ids_shape url base n (c : Collection) lines :
  Forall (written_id base n)
    (write_ids (history (pipeline E url base n (fresh c lines)).2)).
Proof.
  destruct (run_record E url base n c lines) as (Hpm & _).
  rewrite <- write_ids_milestones.
  by destruct (pipeline_write_ids _ _ _ _ Hpm).
Qed.

Lemma replay_keeps ws (c : Collection) content_id r :
  c !! content_id = Some r → replay E ws c !! content_id = Some r.
Proof.
  intros Hr. by eapply (lookup_weaken c); [|apply replay_subseteq].
Qed.

(** C5.  A stored variant is never updated in place.  Whatever is written,
    also under an id already in use, every record of the collection keeps
    its document and metadata; this holds for a single write and for a whole
    run.  Within a run no id is written twice, so a human edit always goes
    to an id the run has not used before. *)
Theorem stored_variants_are_never_replaced :
  (∀ content_id content_text version w stored r,
     coll w !! stored = Some r →
     coll (store_content_in_chroma E content_id content_text version w).2
       !! stored = Some r) ∧
  (∀ url base n (c : Collection) lines,
     let w := (pipeline E url base n (fresh c lines)).2 in
     (∀ stored r, c !! stored = Some r → coll w !! stored = Some r) ∧
     NoDup (write_ids (history w))).
Proof.
  split.
  - intros content_id content_text version w stored r Hr.
    rewrite coll_store. by apply commit_keeps.
  - intros url base n c lines w. subst w.
    destruct (run_record E url base n c lines) as (Hpm & Hc & _). split.
    + intros stored r Hr. rewrite Hc. by apply replay_keeps.
    + rewrite <- write_ids_milestones.
      by destruct (pipeline_write_ids _ _ _ _ Hpm).
Qed.

(** C10.  The query helper is called with its default result count, which
    is 1, and at most once per run.  The report printed from the answer has
    at most one result block, and the snippet it shows holds at most one
    stored document, however many variants the collection contains. *)
Theorem final_query_asks_for_one_result url base n (c : Collection) lines :
  let w := (pipeline E url base n (fresh c lines)).2 in
  default_n_results = 1 ∧
  (queries (history w) = [] ∨
   queries (history w) = [(search_query, default_n_results)]) ∧
  (length (result_headers (history w)) ≤ 1)%nat ∧
  Forall (λ docs, (length docs ≤ 1)%nat) (snippets (history w)).
Proof.
  intros w. subst w.
  destruct (run_record E url base n c lines) as (Hpm & _).
  rewrite <- queries_milestones, <- result_headers_milestones,
    <- snippets_milestones.
  split; [done|].
  destruct Hpm as [|text loop Hloop|text loop r' rep Hloop Hrep].
  - simpl. auto.
  - destruct (loop_quiet_queries _ _ _ _ _ Hloop) as (Hq & Hh & Hs).
    change (?x :: loop) with ([x] ++ loop).
    unfold queries, result_headers, snippets in *.
    rewrite !omap_app, Hq, Hh, Hs. simpl. auto.
  - destruct (loop_quiet_queries _ _ _ _ _ Hloop) as (Hq & Hh & Hs).
    change (?x :: loop ++ ?q :: rep) with ([x] ++ loop ++ [q] ++ rep).
    unfold queries, result_headers, snippets in *.
    rewrite !omap_app, Hq, Hh, Hs. simpl.
    destruct Hrep; simpl; repeat split; auto.
Qed.

(** C4.  In a run configured for three iterations whose log records that
    the rewrite of iteration 2 failed, the writes are exactly the original,
    the rewrite of iteration 1 and the checkpoint variant of iteration 1 (in
    this order); with a working store the collection holds these ids besides
    those it started with; the demonstration query is sent, and the run ends
    normally. *)
Theorem spin_failure_in_second_iteration url base (c : Collection) lines :
  (∀ c' i d, add_fault E c' i d = false) →
  let r := pipeline E url base 3 (fresh c lines) in
  In (Log ERROR (MsgSpinFailed 2)) (history r.2) →
  r.1 = Ret tt ∧
  (∃ decision_id,
     (decision_id = final_id base 1 ∨ decision_id = edited_id base 1) ∧
     write_ids (history r.2)
     = [original_id base; spun_id base 1; decision_id]) ∧
  dom (coll r.2) = dom c ∪ list_to_set (write_ids (history r.2)) ∧
  queries (history r.2) = [(search_query, 1%nat)].
Proof.
  intros Hf r Hin. subst r.
  destruct (run_record E url base 3 c lines) as (Hpm & Hc & Hcrash).
  assert (In (Log ERROR (MsgSpinFailed 2))
            (milestones (history (pipeline E url base 3 (fresh c lines)).2)))
    as Hin' by (apply List.filter_In; by split).
  assert (dom (coll (pipeline E url base 3 (fresh c lines)).2)
          = dom c ∪ list_to_set
                      (write_ids (history (pipeline E url base 3 (fresh c lines)).2)))
    as Hdom.
  { rewrite Hc, dom_replay by exact Hf. f_equal.
    apply list_to_set_perm_L. unfold history, write_ids.
    rewrite writes_rev, fmap_rev. apply Permutation_rev. }
  rewrite <- write_ids_milestones, <- queries_milestones in *.
  destruct (pipeline E url base 3 (fresh c lines)) as [r w]. simpl in *.
  clear Hin.
  set (l := milestones (history w)) in *. clearbody l.
  destruct Hpm as [|text loop Hloop|text loop r' rep Hloop Hrep].
  - destruct Hin'.
  - destruct Hin' as [Heq|Hin']; [discriminate|].
    by destruct (loop_spin_failure _ _ _ _ _ _ Hloop Hin') as (? & _).
  - assert (In (Log ERROR (MsgSpinFailed 2)) loop) as Hin.
    { destruct Hin' as [Heq|Hin']; [discriminate|].
      apply in_app_or in Hin' as [Hin'|[Heq|Hin']]; [done|discriminate|].
      destruct Hrep; simpl in Hin'; intuition discriminate. }
    destruct (loop_spin_failure _ _ _ _ _ _ Hloop Hin) as (_ & finished & Hfin & ->).
    inversion Hfin as [|i k spun d rest Hd Hrest]; subst.
    inversion Hrest as [|i k spun2 d2 rest2 Hd2 Hrest2]; subst.
    2:{ apply completed_iterations_le in Hrest2. lia. }
    destruct (decision_write_id base 1 d Hd) as (did & Hdid & Hshape & Hq & _).
    destruct (report_quiet_writes _ _ Hrep) as [Hw Hqr].
    assert (write_ids
              (add_event (original_id base) text "original"
                 :: ([spun_write base 1 spun; d] ++ [Log ERROR (MsgSpinFailed 2)])
                 ++ Ext (CollectionQuery search_query default_n_results) :: rep)
            = [original_id base; spun_id base 1; did]) as Hids.
    { change (write_ids ([add_event (original_id base) text "original";
                          spun_write base 1 spun] ++ [d]
                         ++ [Log ERROR (MsgSpinFailed 2);
                             Ext (CollectionQuery search_query default_n_results)]
                         ++ rep)
              = [original_id base; spun_id base 1; did]).
      rewrite !write_ids_app, Hdid, Hw. reflexivity. }
    rewrite Hids in *. split; [|split; [eauto|split; [exact Hdom|]]].
    + destruct r' as [[]|e]; [done|].
      inversion Hrep; subst. specialize (Hcrash eq_refl).
      rewrite Hcrash, dom_empty_L in Hdom. set_solver.
    + change (queries ([add_event (original_id base) text "original";
                          spun_write base 1 spun] ++ [d]
                         ++ [Log ERROR (MsgSpinFailed 2);
                             Ext (CollectionQuery search_query default_n_results)]
                         ++ rep) = [(search_query, 1%nat)]).
      unfold queries in *. rewrite !omap_app, Hq, Hqr. reflexivity.
Qed.

End Claims.

Lemma stored_variants_are_never_replaced_witness :
  let E := Demo.env RaiseOnDuplicate in
  let w := fresh Demo.stored_original [] in
  let kept := ("first text",
               {| meta_id := "ch1_original"; version_type := "original" |}) in
  coll w !! "ch1_original" = Some kept ∧
  coll (store_content_in_chroma E "ch1_original" "second text" "original" w).2
    !! "ch1_original" = Some kept ∧
  coll (pipeline E target_url "ch1" 1 (fresh Demo.stored_original ["accept"])).2
    !! "ch1_original" = Some kept.
Proof.
  intros E w kept.
  pose proof (stored_variants_are_never_replaced E) as [Hwrite Hrun].
  split; [reflexivity|]. split.
  - exact (Hwrite "ch1_original" "second text" "original" w
             "ch1_original" kept eq_refl).
  - destruct (Hrun target_url "ch1" 1%nat Demo.stored_original ["accept"])
      as [Hkeep _].
    exact (Hkeep "ch1_original" kept eq_refl).
Defined.

Lemma spin_failure_in_second_iteration_witness :
  let E := Demo.env_spin2_fails in
  let r := pipeline E target_url "ch1" 3 (fresh ∅ ["accept"; "accept"]) in
  ((∀ c' i d, add_fault E c' i d = false) ∧
   In (Log ERROR (MsgSpinFailed 2)) (history r.2)) ∧
  r.1 = Ret tt ∧
  write_ids (history r.2) = ["ch1_original"; "ch1_ai_spun_iter_1"; "ch1_iter_1_final"] ∧
  queries (history r.2) = [(search_query, 1%nat)].
Proof.
  intros E r.
  assert (∀ (c' : Collection) i d, add_fault E c' i d = false) as Hf by reflexivity.
  assert (In (Log ERROR (MsgSpinFailed 2)) (history r.2)) as Hin.
  { vm_compute. repeat (first [left; reflexivity | right]). }
  split; [by split|].
  destruct (spin_failure_in_second_iteration E target_url "ch1" ∅
              ["accept"; "accept"] Hf Hin) as (Hret & _ & _ & Hq).
  split; [exact Hret|]. split; [|exact Hq].
  vm_compute. reflexivity.
Defined.

(** ** The naming convention of the specification *)

(** C3 as stated fails: the ids the checkpoint writes put the iteration
    before the stage label, which the convention [{base}_{stage}[_iter_{n}]]
    does not allow. *)
Lemma checkpoint_ids_break_spec_convention :
  let r := main (Demo.env IgnoreDuplicate) (fresh ∅ ["accept"; "edit"; "Hello"; "DONE"]) in
  write_ids (history r.2)
  = ["gates_of_morning_ch1_original";
     "gates_of_morning_ch1_ai_spun_iter_1";
     "gates_of_morning_ch1_iter_1_final";
     "gates_of_morning_ch1_ai_spun_iter_2";
     "gates_of_morning_ch1_iter_2_human_edited"] ∧
  spec_id_convention chapter_id_base <$> write_ids (history r.2)
  = [true; true; false; true; false] ∧
  ¬ Forall (λ content_id, spec_id_convention chapter_id_base content_id = true)
      (write_ids (history r.2)).
Proof.
  intros r.
  assert (write_ids (history r.2)
          = ["gates_of_morning_ch1_original";
             "gates_of_morning_ch1_ai_spun_iter_1";
             "gates_of_morning_ch1_iter_1_final";
             "gates_of_morning_ch1_ai_spun_iter_2";
             "gates_of_morning_ch1_iter_2_human_edited"]) as Hids
    by (vm_compute; reflexivity).
  rewrite Hids. split; [reflexivity|]. split; [vm_compute; reflexivity|].
  intros Hall. rewrite Forall_forall in Hall.
  specialize (Hall "gates_of_morning_ch1_iter_1_final").
  assert (spec_id_convention chapter_id_base "gates_of_morning_ch1_iter_1_final"
          = false) as Hno by (vm_compute; reflexivity).
  rewrite Hno in Hall. discriminate Hall.
  apply list_elem_of_In. simpl. tauto.
Qed.

(** ** An edit without lines *)

Section EmptyEdit.

Variable E : Env.

Lemma ai_spin_chapter_answer cur i spun w :
  cur ≠ "" →
  gemini E (length (prompts (trace w))) (spin_prompt cur i) = Some spun →
  ∃ w', ai_spin_chapter E cur i w = (Ret (Some spun), w') ∧
    stdin w' = stdin w ∧ observed [] w w'.
Proof.
  intros Hcur Hgen. unfold ai_spin_chapter.
  destruct cur as [|a cur]; [done|]. cbn [Py.truthy negb].
  unfold try_except, bind, log, ret, generate_content.
  change (prompts (trace (emit (Log INFO (MsgSpinSending i)) w)))
    with (prompts (trace w)).
  rewrite Hgen. eexists. by split.
Qed.

Lemma ai_review_chapter_silent text w :
  ∃ o w', ai_review_chapter E text w = (Ret o, w') ∧
    stdin w' = stdin w ∧ observed [] w w'.
Proof.
  unfold ai_review_chapter. destruct (negb _).
  - eexists _, _. by split.
  - unfold try_except, bind, log, ret, generate_content.
    destruct (gemini E _ _); eexists _, _; by split.
Qed.

Lemma show_feedback_silent (ai_review_feedback : option string) w :
  ∃ w',
    (if Py.truthy ai_review_feedback then
       print (Py.nl +:+ "--- AI Reviewer Feedback ---");;;
       print (default "" ai_review_feedback);;;
       print ("----------------------------" +:+ Py.nl)
     else ret tt) w = (Ret tt, w') ∧
    stdin w' = stdin w ∧ observed [] w w'.
Proof.
  destruct (Py.truthy ai_review_feedback).
  - unfold bind, print. eexists. by split.
  - eexists. by split.
Qed.

Lemma store_content_in_chroma_observed content_id content_text version w :
  ∃ w',
    store_content_in_chroma E content_id content_text version w = (Ret tt, w') ∧
    stdin w' = stdin w ∧
    observed [(content_id, content_text,
               {| meta_id := content_id; version_type := version |})] w w'.
Proof.
  destruct (store_content_in_chroma_run E content_id content_text version w)
    as (lvl & msg & Hlog & ->).
  eexists. split; [reflexivity|].
  by destruct Hlog as [[-> ->]|[-> ->]].
Qed.

Lemma checkpoint_empty_edit_observed text chapter_id rest w :
  stdin w = "edit" :: "DONE" :: rest →
  ∃ w',
    human_in_the_loop_feedback E text chapter_id w = (Ret (Some ""), w') ∧
    stdin w' = rest ∧
    observed [(chapter_id +:+ "_human_edited", "",
               {| meta_id := chapter_id +:+ "_human_edited";
                  version_type := "human_edited" |})] w w'.
Proof.
  destruct w as [c inp t]. simpl. intros ->.
  unfold human_in_the_loop_feedback, bind, print, emit. simpl.
  unfold bind, log, print, edit_session, emit. simpl.
  match goal with |- context [store_content_in_chroma E ?a ?b ?c ?w] =>
    destruct (store_content_in_chroma_observed a b c w) as (w' & -> & Hin & [Hw Hs Hr]) end.
  simpl in *. eexists. split; [reflexivity|]. by split.
Qed.

End EmptyEdit.

Lemma iterations_empty_edit_run E base todo i cur spun rest w :
  cur ≠ "" → spun ≠ "" →
  gemini E (length (prompts (trace w))) (spin_prompt cur i) = Some spun →
  stdin w = "edit" :: "DONE" :: rest →
  ∃ w',
    iterations E base (S todo) i cur w
    = (Ret tt, emit (Log WARNING (MsgRejectedInIteration i)) w') ∧
    stdin w' = rest ∧
    iterations_started (trace w') = i :: iterations_started (trace w) ∧
    rejections (trace w') = rejections (trace w) ∧
    write_ids (trace w') = edited_id base i :: spun_id base i :: write_ids (trace w).
Proof.
  intros Hcur Hspun Hgen Hin.
  rewrite iterations_S.
  unfold bind at 1. unfold log at 1. unfold bind at 1.
  destruct (ai_spin_chapter_answer E cur i spun
              (emit (Log INFO (MsgIterationStart i)) w) Hcur Hgen)
    as (w1 & -> & Hin1 & [Hw1 Hs1 Hr1]).
  destruct spun as [|b spun]; [done|]. cbn [Py.truthy negb default from_option id].
  unfold bind at 1.
  destruct (store_content_in_chroma_observed E
              (base +:+ "_ai_spun_iter_" +:+ pretty i) (String b spun)
              ("ai_spun_iter_" +:+ pretty i) w1) as (w2 & -> & Hin2 & [Hw2 Hs2 Hr2]).
  unfold bind at 1.
  destruct (ai_review_chapter_silent E (String b spun) w2)
    as (fb & w3 & -> & Hin3 & [Hw3 Hs3 Hr3]).
  unfold bind at 1.
  destruct (show_feedback_silent fb w3) as (w4 & -> & Hin4 & [Hw4 Hs4 Hr4]).
  unfold bind at 1.
  destruct (checkpoint_empty_edit_observed E (String b spun)
              (base +:+ "_iter_" +:+ pretty i) rest w4)
    as (w5 & -> & Hin5 & [Hw5 Hs5 Hr5]).
  { by rewrite Hin4, Hin3, Hin2, Hin1. }
  cbn [Py.truthy]. unfold log. exists w5.
  split; [reflexivity|]. split; [exact Hin5|]. split; [|split].
  - by rewrite Hs5, Hs4, Hs3, Hs2, Hs1.
  - by rewrite Hr5, Hr4, Hr3, Hr2, Hr1.
  - unfold write_ids. by rewrite Hw5, Hw4, Hw3, Hw2, Hw1.
Qed.

(** Whatever the services answer and however many iterations remain: when
    the rewrite of iteration [i] succeeds and the operator closes an edit
    at once, the loop ends there, logging a rejection. *)
Lemma empty_edit_is_taken_for_a_rejection E base todo i cur spun rest w :
  cur ≠ "" → spun ≠ "" →
  gemini E (length (prompts (trace w))) (spin_prompt cur i) = Some spun →
  stdin w = "edit" :: "DONE" :: rest →
  let r := iterations E base (S todo) i cur w in
  r.1 = Ret tt ∧
  stdin r.2 = rest ∧
  iterations_started (trace r.2) = i :: iterations_started (trace w) ∧
  rejections (trace r.2) = i :: rejections (trace w) ∧
  write_ids (trace r.2) = edited_id base i :: spun_id base i :: write_ids (trace w).
Proof.
  intros Hcur Hspun Hgen Hin r. subst r.
  destruct (iterations_empty_edit_run E base todo i cur spun rest w
              Hcur Hspun Hgen Hin) as (w' & -> & Hin' & Hs & Hr & Hw).
  cbn [fst snd].
  change (trace (emit ?e w')) with (e :: trace w').
  change (stdin (emit ?e w')) with (stdin w').
  split; [done|]. split; [exact Hin'|]. split; [exact Hs|]. split; [|exact Hw].
  change (rejections (?e :: trace w')) with (i :: rejections (trace w')).
  by rewrite Hr.
Qed.


(** C1.  The checkpoint hands an edit without lines back as the empty text
    and stores it, but the orchestrator tests the returned text for truth:
    the empty text takes the branch of a rejection (the lemma above, for any
    services).  With two iterations configured, the run below starts only
    the first one, logs a rejection for it and leaves the operator's next
    line unread. *)
Theorem empty_edit_ends_the_loop :
  let E := Demo.env IgnoreDuplicate in
  let r := main E (fresh ∅ ["edit"; "DONE"; "accept"]) in
  (human_in_the_loop_feedback E "draft 0" "gates_of_morning_ch1_iter_1"
     (fresh ∅ ["edit"; "DONE"; "accept"])).1 = Ret (Some "") ∧
  num_iterations = 2%nat ∧
  r.1 = Ret tt ∧
  iterations_started (history r.2) = [1%nat] ∧
  rejections (history r.2) = [1%nat] ∧
  stdin r.2 = ["accept"] ∧
  coll r.2 !! "gates_of_morning_ch1_iter_1_human_edited"
  = Some ("", {| meta_id := "gates_of_morning_ch1_iter_1_human_edited";
                 version_type := "human_edited" |}).
Proof.
  intros E r. split.
  - exact (proj1 (checkpoint_empty_edit E "draft 0" "gates_of_morning_ch1_iter_1"
                    ["accept"] ∅ [])).
  - repeat split; vm_compute; reflexivity.
Qed.

(** ** Further properties: the checkpoint *)

Section CheckpointSessions.

Variable E : Env.


Lemma effect_trans ws1 ws2 w w1 w2 :
  effect E ws1 w w1 → effect E ws2 w1 w2 → effect E (ws2 ++ ws1) w w2.
Proof.
  intros [Hc1 Hw1 Hq1 Hs1 Hr1] [Hc2 Hw2 Hq2 Hs2 Hr2]. split.
  - rewrite Hc2, Hc1. unfold replay. by rewrite foldr_app.
  - by rewrite Hw2, Hw1, app_assoc.
  - by rewrite Hq2.
  - by rewrite Hs2.
  - by rewrite Hr2.
Qed.

Lemma effect_quiet_then ws w w1 w2 :
  effect E [] w w1 → effect E ws w1 w2 → effect E ws w w2.
Proof.
  intros H1 H2. rewrite <- (app_nil_r ws). by eapply effect_trans.
Qed.

Lemma effect_then_quiet ws w w1 w2 :
  effect E ws w w1 → effect E [] w1 w2 → effect E ws w w2.
Proof. intros H1 H2. by apply (effect_trans ws [] w w1 w2). Qed.

Lemma store_content_in_chroma_effect content_id content_text version w :
  ∃ w',
    store_content_in_chroma E content_id content_text version w = (Ret tt, w') ∧
    stdin w' = stdin w ∧
    effect E [(content_id, content_text,
               {| meta_id := content_id; version_type := version |})] w w'.
Proof.
  destruct (store_content_in_chroma_run E content_id content_text version w)
    as (lvl & msg & Hlog & ->).
  eexists. split; [reflexivity|]. split; [reflexivity|].
  by destruct Hlog as [[-> ->]|[-> ->]].
Qed.







End CheckpointSessions.

Section CheckpointProperties.

Variable E : Env.





(** X4.  Whatever is typed, the checkpoint ends in one of four ways: the text is
    accepted and stored as final; an edit is stored as human_edited and
    returned; the text is rejected and nothing is stored; or the input ends
    and nothing is stored.  It never requests more than one write and
    raises no other exception. *)
Theorem checkpoint_outcomes text chapter_id w :
  let r := human_in_the_loop_feedback E text chapter_id w in
  ∃ ms,
    checkpoint_outcome text chapter_id r.1 ms ∧
    writes (trace r.2) = writes ms ++ writes (trace w) ∧
    coll r.2 = replay E (writes ms) (coll w).
Proof.
  intros r. subst r.
  destruct (human_in_the_loop_feedback_outcome E text chapter_id w)
    as (r & w' & ms & -> & (new & [Ht Hc] & Hms) & Hout).
  exists ms. simpl. split; [exact Hout|].
  rewrite <- Hms, writes_milestones. split; [|exact Hc].
  by rewrite Ht, writes_app.
Qed.

End CheckpointProperties.

(** ** Further properties: the calls to the services *)

Section Services.

Variable E : Env.

(** X5.  The transformer never raises and never touches the store or the input.
    On an empty text it returns nothing without calling the model; on any
    other text it sends exactly one prompt, and its result is the model's
    answer: the rewritten text, or nothing when the call failed. *)
Theorem ai_spin_chapter_behaviour original_text current_iteration w :
  let r := ai_spin_chapter E original_text current_iteration w in
  let prompt := spin_prompt original_text current_iteration in
  coll r.2 = coll w ∧ stdin r.2 = stdin w ∧
  writes (trace r.2) = writes (trace w) ∧
  (original_text = "" → r = (Ret None, w)) ∧
  (original_text ≠ "" →
   r.1 = Ret (gemini E (length (prompts (trace w))) prompt) ∧
   prompts (trace r.2) = prompt :: prompts (trace w)).
Proof.
  intros r prompt. subst r prompt. unfold ai_spin_chapter.
  destruct original_text as [|a s]; cbn [Py.truthy negb].
  { repeat split; done. }
  unfold try_except, bind, log, ret, generate_content.
  change (prompts (trace (emit (Log INFO (MsgSpinSending current_iteration)) w)))
    with (prompts (trace w)).
  destruct (gemini E _ _); repeat split; done.
Qed.

(** X6.  The reviewer behaves likewise: no exception, no effect on the store or
    the input, no call on an empty text, one prompt otherwise, and the
    model's answer or nothing as result. *)
Theorem ai_review_chapter_behaviour chapter_text w :
  let r := ai_review_chapter E chapter_text w in
  let prompt := review_prompt chapter_text in
  coll r.2 = coll w ∧ stdin r.2 = stdin w ∧
  writes (trace r.2) = writes (trace w) ∧
  (chapter_text = "" → r = (Ret None, w)) ∧
  (chapter_text ≠ "" →
   r.1 = Ret (gemini E (length (prompts (trace w))) prompt) ∧
   prompts (trace r.2) = prompt :: prompts (trace w)).
Proof.
  intros r prompt. subst r prompt. unfold ai_review_chapter.
  destruct chapter_text as [|a s]; cbn [Py.truthy negb].
  { repeat split; done. }
  unfold try_except, bind, log, ret, generate_content.
  change (prompts (trace (emit (Log INFO MsgReviewSending) w)))
    with (prompts (trace w)).
  destruct (gemini E _ _); repeat split; done.
Qed.

(** X7.  Once the output directory is there and the browser is launched (both
    happen before the try block), the fetcher does not raise: it returns
    the extracted text when the page loaded and nothing when navigation or
    the screenshot failed.  On every path it closes the browser exactly
    once, as its last action, and leaves the store and the input alone. *)
Theorem scrape_closes_the_browser url output_dir w :
  let r := scrape_and_screenshot E url output_dir w in
  r.1 = Ret (match browse E url with
             | Loaded page => Some (scraped_text page)
             | _ => None
             end) ∧
  browser_closes (trace r.2) = S (browser_closes (trace w)) ∧
  (∃ before, trace r.2 = Ext BrowserClose :: before) ∧
  coll r.2 = coll w ∧ stdin r.2 = stdin w ∧
  writes (trace r.2) = writes (trace w).
Proof.
  intros r. subst r.
  unfold scrape_and_screenshot, try_except, bind, log, ret, raise, call.
  destruct (browse E url) as [| |page]; unfold emit; simpl; eauto 10.
Qed.

(** X8.  When the primary selector matches, its paragraphs are the text, in
    order, and the generic selector plays no part. *)
Theorem scrape_prefers_primary_selector url output_dir page w :
  browse E url = Loaded page →
  primary_paragraphs page ≠ [] →
  (scrape_and_screenshot E url output_dir w).1
  = Ret (Some (Py.join Py.nl (primary_paragraphs page))).
Proof.
  intros Hload Hprimary.
  unfold scrape_and_screenshot, try_except, bind, call, log, ret.
  rewrite Hload. by destruct (primary_paragraphs page).
Qed.

Lemma nearest_length (c : Collection) q : length (nearest E c q) = size c.
Proof.
  unfold nearest. rewrite length_fmap.
  rewrite (Permutation_length (merge_sort_Permutation _ _)).
  apply length_map_to_list.
Qed.

(** X9.  The query helper never raises and changes neither store nor input: it
    sends one query and returns nothing when the store raised.  When the
    store answers a request for at least one result, the answer has one
    list of documents, metadata and distances, all of the same length: the
    requested number, or the size of the collection when that is
    smaller. *)
Theorem semantic_search_chroma_behaviour query_text n_results w :
  let r := semantic_search_chroma E query_text n_results w in
  coll r.2 = coll w ∧ stdin r.2 = stdin w ∧
  writes (trace r.2) = writes (trace w) ∧
  queries (trace r.2) = (query_text, n_results) :: queries (trace w) ∧
  (query_fault E (coll w) query_text = true → r.1 = Ret None) ∧
  (query_fault E (coll w) query_text = false → (0 < n_results)%nat →
   ∃ docs metas dists,
     r.1 = Ret (Some {| documents := [docs]; metadatas := [metas];
                        distances := [dists] |}) ∧
     length docs = n_results `min` size (coll w) ∧
     length metas = length docs ∧ length dists = length docs).
Proof.
  intros r. subst r.
  unfold semantic_search_chroma, try_except, bind, call, log, ret, get_coll,
    lift_res, collection_query.
  rewrite !coll_emit.
  destruct (query_fault E (coll w) query_text); repeat split; try done.
  intros _ _. eexists _, _, _. split; [reflexivity|].
  rewrite !length_fmap, length_take, nearest_length. done.
Qed.

(** X10.  A failing store never stops the caller: the write helper returns
    normally whatever [collection.add] does.  It logs one record, an error
    exactly when the add raised, and in that case the collection is as it
    was. *)
Theorem store_content_in_chroma_never_raises content_id content_text version w :
  let r := store_content_in_chroma E content_id content_text version w in
  let m := {| meta_id := content_id; version_type := version |} in
  r.1 = Ret tt ∧ stdin r.2 = stdin w ∧
  match collection_add E (coll w) content_id content_text m with
  | Ret c' =>
      coll r.2 = c' ∧
      trace r.2 = Log INFO (MsgStored content_id version)
                    :: add_event content_id content_text version :: trace w
  | Raise _ =>
      coll r.2 = coll w ∧
      trace r.2 = Log ERROR (MsgStoreError content_id)
                    :: add_event content_id content_text version :: trace w
  end.
Proof.
  intros r m. subst r m.
  unfold store_content_in_chroma, try_except, bind, call, log, get_coll,
    put_coll, lift_res.
  rewrite !coll_emit.
  destruct (collection_add E (coll w) content_id content_text _); done.
Qed.

End Services.

(** ** Further properties: one turn of the loop *)

Section LoopSteps.

Variable E : Env.

Lemma ai_spin_chapter_answers cur i spun w :
  cur ≠ "" →
  gemini E (length (prompts (trace w))) (spin_prompt cur i) = Some spun →
  ∃ w', ai_spin_chapter E cur i w = (Ret (Some spun), w') ∧
    stdin w' = stdin w ∧ effect E [] w w'.
Proof.
  intros Hcur Hgen. unfold ai_spin_chapter.
  destruct cur as [|a cur]; [done|]. cbn [Py.truthy negb].
  unfold try_except, bind, log, ret, generate_content.
  change (prompts (trace (emit (Log INFO (MsgSpinSending i)) w)))
    with (prompts (trace w)).
  rewrite Hgen. eexists. by split.
Qed.

Lemma ai_review_chapter_effect text w :
  ∃ o w', ai_review_chapter E text w = (Ret o, w') ∧
    stdin w' = stdin w ∧ effect E [] w w'.
Proof.
  unfold ai_review_chapter. destruct (negb _).
  - eexists _, _. by split.
  - unfold try_except, bind, log, ret, generate_content.
    destruct (gemini E _ _); eexists _, _; by split.
Qed.

Lemma show_feedback_effect (ai_review_feedback : option string) w :
  ∃ w',
    (if Py.truthy ai_review_feedback then
       print (Py.nl +:+ "--- AI Reviewer Feedback ---");;;
       print (default "" ai_review_feedback);;;
       print ("----------------------------" +:+ Py.nl)
     else ret tt) w = (Ret tt, w') ∧
    stdin w' = stdin w ∧ effect E [] w w'.
Proof.
  destruct (Py.truthy ai_review_feedback).
  - unfold bind, print. eexists. by split.
  - eexists. by split.
Qed.

(** The loop up to the checkpoint of iteration [i], when the rewrite
    succeeds: the rewrite is stored and the checkpoint is run on it. *)
Lemma iterations_to_checkpoint base todo i cur spun w :
  cur ≠ "" → spun ≠ "" →
  gemini E (length (prompts (trace w))) (spin_prompt cur i) = Some spun →
  ∃ w',
    stdin w' = stdin w ∧
    effect E [(spun_id base i, spun,
               {| meta_id := spun_id base i;
                  version_type := "ai_spun_iter_" +:+ pretty i |})]
      (emit (Log INFO (MsgIterationStart i)) w) w' ∧
    iterations E base (S todo) i cur w
    = (let* human_decision_text :=
         human_in_the_loop_feedback E spun (checkpoint_id base i) in
       if Py.truthy human_decision_text then
         iterations E base todo (S i) (default "" human_decision_text)
       else log WARNING (MsgRejectedInIteration i)) w'.
Proof.
  intros Hcur Hspun Hgen.
  rewrite iterations_S.
  unfold bind at 1. unfold log at 1. unfold bind at 1.
  destruct (ai_spin_chapter_answers cur i spun
              (emit (Log INFO (MsgIterationStart i)) w) Hcur Hgen)
    as (w1 & -> & Hin1 & He1).
  destruct spun as [|b spun]; [done|]. cbn [Py.truthy negb default from_option id].
  unfold bind at 1.
  destruct (store_content_in_chroma_effect E
              (base +:+ "_ai_spun_iter_" +:+ pretty i) (String b spun)
              ("ai_spun_iter_" +:+ pretty i) w1) as (w2 & -> & Hin2 & He2).
  unfold bind at 1.
  destruct (ai_review_chapter_effect (String b spun) w2)
    as (fb & w3 & -> & Hin3 & He3).
  unfold bind at 1.
  destruct (show_feedback_effect fb w3) as (w4 & -> & Hin4 & He4).
  exists w4. split; [by rewrite Hin4, Hin3, Hin2, Hin1|]. split; [|done].
  eapply effect_then_quiet; [|exact He4].
  eapply effect_then_quiet; [|exact He3].
  eapply effect_quiet_then; [exact He1|exact He2].
Qed.

Ltac store_effect H :=
  match goal with
  | |- context [store_content_in_chroma E ?a ?b ?c ?w] =>
      let w' := fresh "w" in
      let Hin := fresh "Hin" in
      destruct (store_content_in_chroma_effect E a b c w) as (w' & -> & Hin & H)
  end.

Lemma checkpoint_accept_step text chapter_id line rest w :
  stdin w = line :: rest → action_of line = "accept" →
  ∃ w',
    human_in_the_loop_feedback E text chapter_id w = (Ret (Some text), w') ∧
    stdin w' = rest ∧
    effect E [(chapter_id +:+ "_final", text,
               {| meta_id := chapter_id +:+ "_final"; version_type := "final" |})]
      w w'.
Proof.
  destruct w as [c inp t]. simpl. intros -> Hline.
  unfold human_in_the_loop_feedback, bind, print. simpl.
  unfold action_of in Hline. rewrite Hline. simpl.
  unfold bind, log, ret. store_effect He.
  eexists. split; [reflexivity|]. split; [done|].
  eapply effect_quiet_then; [|exact He]. by split.
Qed.


Lemma checkpoint_reject_step text chapter_id line rest w :
  stdin w = line :: rest → action_of line = "reject" →
  ∃ w',
    human_in_the_loop_feedback E text chapter_id w = (Ret None, w') ∧
    stdin w' = rest ∧ effect E [] w w'.
Proof.
  destruct w as [c inp t]. simpl. intros -> Hline.
  unfold human_in_the_loop_feedback, bind, print. simpl.
  unfold action_of in Hline. rewrite Hline. simpl.
  eexists. split; [reflexivity|]. by split.
Qed.

(** X11.  An accepted rewrite does not end the loop: it is stored as final and
    becomes the text the remaining iterations start from. *)
Theorem iteration_accept_continues base todo i cur spun line rest w :
  cur ≠ "" → spun ≠ "" →
  gemini E (length (prompts (trace w))) (spin_prompt cur i) = Some spun →
  stdin w = line :: rest → action_of line = "accept" →
  ∃ w',
    iterations E base (S todo) i cur w = iterations E base todo (S i) spun w' ∧
    stdin w' = rest ∧
    write_ids (trace w') = final_id base i :: spun_id base i :: write_ids (trace w) ∧
    iterations_started (trace w') = i :: iterations_started (trace w) ∧
    rejections (trace w') = rejections (trace w).
Proof.
  intros Hcur Hspun Hgen Hin Hline.
  destruct (iterations_to_checkpoint base todo i cur spun w Hcur Hspun Hgen)
    as (w1 & Hin1 & [_ Hw1 _ Hs1 Hr1] & ->).
  unfold bind at 1.
  destruct (checkpoint_accept_step spun (checkpoint_id base i) line rest w1)
    as (w2 & -> & Hin2 & [_ Hw2 _ Hs2 Hr2]); [by rewrite Hin1|done|].
  destruct spun as [|b spun]; [done|]. cbn [Py.truthy default from_option id].
  exists w2. split; [done|]. split; [done|].
  unfold write_ids. rewrite Hw2, Hw1, Hs2, Hs1, Hr2, Hr1. done.
Qed.


Lemma iterations_reject_run base todo i cur spun line rest w :
  cur ≠ "" → spun ≠ "" →
  gemini E (length (prompts (trace w))) (spin_prompt cur i) = Some spun →
  stdin w = line :: rest → action_of line = "reject" →
  ∃ w',
    iterations E base (S todo) i cur w
    = (Ret tt, emit (Log WARNING (MsgRejectedInIteration i)) w') ∧
    stdin w' = rest ∧
    write_ids (trace w') = spun_id base i :: write_ids (trace w) ∧
    iterations_started (trace w') = i :: iterations_started (trace w) ∧
    rejections (trace w') = rejections (trace w).
Proof.
  intros Hcur Hspun Hgen Hin Hline.
  destruct (iterations_to_checkpoint base todo i cur spun w Hcur Hspun Hgen)
    as (w1 & Hin1 & [_ Hw1 _ Hs1 Hr1] & ->).
  unfold bind at 1.
  destruct (checkpoint_reject_step spun (checkpoint_id base i) line rest w1)
    as (w2 & -> & Hin2 & [_ Hw2 _ Hs2 Hr2]); [by rewrite Hin1|done|].
  cbn [Py.truthy]. unfold log.
  exists w2. split; [done|]. split; [done|].
  unfold write_ids. rewrite Hw2, Hw1, Hs2, Hs1, Hr2, Hr1. done.
Qed.

(** X13.  A rejection ends the loop at once, however many iterations remain: the
    rewrite just stored is the last write, no further iteration starts, and
    the lines the operator typed ahead stay unread. *)
Theorem iteration_reject_ends_the_loop base todo i cur spun line rest w :
  cur ≠ "" → spun ≠ "" →
  gemini E (length (prompts (trace w))) (spin_prompt cur i) = Some spun →
  stdin w = line :: rest → action_of line = "reject" →
  let r := iterations E base (S todo) i cur w in
  r.1 = Ret tt ∧
  stdin r.2 = rest ∧
  write_ids (trace r.2) = spun_id base i :: write_ids (trace w) ∧
  iterations_started (trace r.2) = i :: iterations_started (trace w) ∧
  rejections (trace r.2) = i :: rejections (trace w).
Proof.
  intros Hcur Hspun Hgen Hin Hline r. subst r.
  destruct (iterations_reject_run base todo i cur spun line rest w
              Hcur Hspun Hgen Hin Hline) as (w' & -> & Hin' & Hw & Hs & Hr).
  cbn [fst snd].
  change (trace (emit ?e w')) with (e :: trace w').
  change (stdin (emit ?e w')) with (stdin w').
  split; [done|]. split; [exact Hin'|]. split; [exact Hw|]. split; [exact Hs|].
  change (rejections (?e :: trace w')) with (i :: rejections (trace w')).
  by rewrite Hr.
Qed.

End LoopSteps.

(** ** Further properties: how a run can end *)

Section Endings.

Variable E : Env.

Lemma read_edits_raises pending :
  ∀ acc w e w',
    read_edits pending acc w = (Raise e, w') → e = EOFError ∧ stdin w' = [].
Proof.
  induction pending as [|l pending IH]; intros acc w e w'; simpl.
  - intros [= <- <-]. done.
  - destruct (_ =? _); [done|]. apply IH.
Qed.

Lemma await_decision_raises text chapter_id pending :
  ∀ w e w',
    await_decision E pending text chapter_id w = (Raise e, w') →
    e = EOFError ∧ stdin w' = [].
Proof.
  induction pending as [|l pending IH]; intros w e w'; simpl.
  - intros [= <- <-]. done.
  - destruct (_ =? "accept").
    { unfold bind, log, ret.
      match goal with |- context [store_content_in_chroma E ?a ?b ?c ?v] =>
        destruct (store_content_in_chroma_run E a b c v) as (lvl & msg & _ & ->) end.
      done. }
    destruct (_ =? "edit").
    { unfold bind, print, log, ret, edit_session.
      match goal with |- context [read_edits ?p ?acc ?v] =>
        pose proof (read_edits_raises p acc v) as Hraise;
        destruct (read_edits p acc v) as [[lines|e'] u] end.
      - match goal with |- context [store_content_in_chroma E ?a ?b ?c ?v] =>
          destruct (store_content_in_chroma_run E a b c v) as (lvl & msg & _ & ->) end.
        done.
      - intros [= <- <-]. by apply Hraise. }
    destruct (_ =? "reject"); [done|].
    unfold bind, print. apply IH.
Qed.

Lemma human_in_the_loop_feedback_raises text chapter_id w e w' :
  human_in_the_loop_feedback E text chapter_id w = (Raise e, w') →
  e = EOFError ∧ stdin w' = [].
Proof.
  unfold human_in_the_loop_feedback, bind, print. apply await_decision_raises.
Qed.

Lemma iterations_raises base todo :
  ∀ i cur w e w',
    iterations E base todo i cur w = (Raise e, w') →
    e = EOFError ∧ stdin w' = [].
Proof.
  induction todo as [|todo IH]; intros i cur w e w'; [done|].
  rewrite iterations_S. unfold bind at 1. unfold log at 1. unfold bind at 1.
  destruct (ai_spin_chapter_quiet E cur i (emit (Log INFO (MsgIterationStart i)) w))
    as (o & w1 & -> & _).
  destruct (Py.truthy o); cbn [negb]; [|done].
  unfold bind at 1.
  match goal with |- context [store_content_in_chroma E ?a ?b ?c ?v] =>
    destruct (store_content_in_chroma_run E a b c v) as (lvl & msg & _ & ->) end.
  unfold bind at 1.
  match goal with |- context [ai_review_chapter E ?a ?v] =>
    destruct (ai_review_chapter_quiet E a v) as (fb & w3 & -> & _) end.
  unfold bind at 1.
  destruct (show_feedback_quiet E fb w3) as (w4 & -> & _).
  unfold bind at 1.
  match goal with |- context [human_in_the_loop_feedback E ?a ?b ?v] =>
    pose proof (human_in_the_loop_feedback_raises a b v) as Hraise;
    destruct (human_in_the_loop_feedback E a b v) as [[d|e'] w5] end.
  - destruct (Py.truthy d); [apply IH|done].
  - intros [= <- <-]. by apply Hraise.
Qed.

Lemma pipeline_end_of_input url base n w w' :
  pipeline E url base n w = (Raise EOFError, w') → stdin w' = [].
Proof.
  unfold pipeline. destruct (collection_ready E); cbn [negb]; [|done].
  unfold bind at 1. unfold log at 1. unfold bind at 1.
  match goal with |- context [scrape_and_screenshot E ?a ?b ?v] =>
    destruct (scrape_and_screenshot_quiet E a b v) as (o & w1 & -> & _) end.
  destruct (Py.truthy o); cbn [negb]; [|done].
  unfold bind at 1.
  match goal with |- context [store_content_in_chroma E ?a ?b ?c ?v] =>
    destruct (store_content_in_chroma_run E a b c v) as (lvl & msg & _ & ->) end.
  unfold bind at 1.
  match goal with |- context [iterations E ?a ?b ?c ?d ?v] =>
    pose proof (iterations_raises a b c d v) as Hraise;
    destruct (iterations E a b c d v) as [[[]|e'] w3] end.
  2:{ intros [= -> <-]. by destruct (Hraise _ _ eq_refl). }
  unfold bind at 1. unfold print at 1. unfold bind at 1.
  match goal with |- context [semantic_search_chroma E ?a ?b ?v] =>
    destruct (semantic_search_chroma_result E a b v) as (res & w4 & -> & _ & Hres) end.
  unfold bind at 1.
  destruct Hres as [-> | (hits & Hhits & ->)].
  - destruct (report_none E w4) as (w5 & -> & _). done.
  - destruct (report_hits E hits w4) as (r & w5 & ms & -> & _ & Hrep & _).
    { rewrite Hhits, length_take. unfold default_n_results. lia. }
    destruct Hrep; done.
Qed.

(** X14.  With the client, the model handle and the browser set up (these calls
    are outside every try block), [main] can end in three ways only:
    normally; with EOFError, when the operator's input ran out at a
    checkpoint, all of it read and no query sent; or with IndexError, in
    the report, when the query was sent and answered from an empty
    collection. *)
Theorem run_endings url base n (c : Collection) lines :
  let r := pipeline E url base n (fresh c lines) in
  (r.1 = Ret tt ∨ r.1 = Raise EOFError ∨ r.1 = Raise IndexError) ∧
  (r.1 = Raise EOFError → stdin r.2 = [] ∧ queries (history r.2) = []) ∧
  (r.1 = Raise IndexError →
   coll r.2 = ∅ ∧ queries (history r.2) = [(search_query, default_n_results)]).
Proof.
  intros r. subst r.
  destruct (run_record E url base n c lines) as (Hpm & _ & Hcrash).
  pose proof (pipeline_end_of_input url base n (fresh c lines)) as Heof.
  rewrite <- queries_milestones.
  destruct (pipeline E url base n (fresh c lines)) as [r w]. simpl in *.
  set (l := milestones (history w)) in *. clearbody l.
  destruct Hpm as [|text loop Hloop|text loop r' rep Hloop Hrep].
  - split; [by left|]. split; done.
  - split; [by right; left|]. split; [|done]. intros _.
    split; [by apply Heof|].
    destruct (loop_quiet_queries _ _ _ _ _ Hloop) as (Hq & _).
    change (?x :: loop) with ([x] ++ loop).
    unfold queries in *. by rewrite omap_app, Hq.
  - destruct (loop_quiet_queries _ _ _ _ _ Hloop) as (Hq & _).
    destruct (report_quiet_writes _ _ Hrep) as [_ Hqr].
    assert (queries (add_event (original_id base) text "original"
                       :: loop ++ Ext (CollectionQuery search_query default_n_results)
                       :: rep)
            = [(search_query, default_n_results)]) as Hqs.
    { change (queries ([add_event (original_id base) text "original"] ++ loop
                       ++ [Ext (CollectionQuery search_query default_n_results)]
                       ++ rep) = [(search_query, default_n_results)]).
      unfold queries in *. by rewrite !omap_app, Hq, Hqr. }
    destruct Hrep.
    + split; [by left|]. split; done.
    + split; [by left|]. split; done.
    + split; [by right; right|]. split; [done|]. intros _. split; [auto|done].
Qed.

End Endings.

(** ** Further properties: whole runs *)

Section RunProperties.

Variable E : Env.

Lemma scrape_and_screenshot_run url output_dir w :
  ∃ w',
    scrape_and_screenshot E url output_dir w
    = (Ret (match browse E url with
            | Loaded page => Some (scraped_text page)
            | _ => None
            end), w') ∧
    coll w' = coll w ∧ stdin w' = stdin w ∧
    writes (trace w') = writes (trace w) ∧
    prompts (trace w') = prompts (trace w) ∧
    queries (trace w') = queries (trace w).
Proof.
  unfold scrape_and_screenshot, try_except, bind, log, ret, raise, call.
  destruct (browse E url) as [| |page]; eexists; (split; [reflexivity|]); done.
Qed.

Lemma pipeline_without_text_run url base n w :
  collection_ready E = false ∨
  match browse E url with
  | Loaded page => scraped_text page = ""
  | _ => True
  end →
  ∃ w',
    pipeline E url base n w = (Ret tt, w') ∧
    writes (trace w') = writes (trace w) ∧
    prompts (trace w') = prompts (trace w) ∧
    queries (trace w') = queries (trace w) ∧
    coll w' = coll w ∧ stdin w' = stdin w.
Proof.
  intros Hno. unfold pipeline.
  destruct (collection_ready E); cbn [negb].
  2:{ eexists. split; [reflexivity|]. done. }
  destruct Hno as [?|Hno]; [done|].
  unfold bind at 1. unfold log at 1. unfold bind at 1.
  match goal with |- context [scrape_and_screenshot E ?a ?b ?v] =>
    destruct (scrape_and_screenshot_run a b v)
      as (w1 & -> & Hc & Hin & Hw & Hp & Hq) end.
  assert (Py.truthy (match browse E url with
                     | Loaded page => Some (scraped_text page)
                     | _ => None
                     end) = false) as ->.
  { destruct (browse E url); [done..|]. by rewrite Hno. }
  cbn [negb]. unfold log. eexists. split; [reflexivity|].
  change (trace (emit ?e w1)) with (e :: trace w1).
  change (coll (emit ?e w1)) with (coll w1).
  change (stdin (emit ?e w1)) with (stdin w1).
  split; [exact Hw|]. split; [exact Hp|]. split; [exact Hq|]. by split.
Qed.

(** X15.  Without a text there is no run: when the collection cannot be opened,
    the page cannot be fetched, or the page has no paragraph text, [main]
    returns normally having stored nothing, called the model never, sent no
    query and read no input. *)
Theorem run_without_text url base n (c : Collection) lines :
  collection_ready E = false ∨
  match browse E url with
  | Loaded page => scraped_text page = ""
  | _ => True
  end →
  let r := pipeline E url base n (fresh c lines) in
  r.1 = Ret tt ∧ writes (trace r.2) = [] ∧ prompts (trace r.2) = [] ∧
  queries (trace r.2) = [] ∧ coll r.2 = c ∧ stdin r.2 = lines.
Proof.
  intros Hno r. subst r.
  by destruct (pipeline_without_text_run url base n (fresh c lines) Hno)
    as (w' & -> & Hw & Hp & Hq & Hc & Hin).
Qed.

(** X16.  The report takes the first metadata entry of every answer list without
    looking whether there is one: on an answer without hits it prints the
    heading and raises IndexError. *)
Theorem report_without_hits results w :
  documents results ≠ [] →
  (∀ ms, metadatas results !! 0%nat = Some ms → ms = []) →
  report (Some results) w
  = (Raise IndexError,
     emit (Print (OutText ("Semantic search results for '" +:+ search_query +:+ "':")))
       w).
Proof.
  intros Hdocs Hmetas. unfold report.
  destruct (documents results) as [|doc docs]; [done|].
  unfold bind at 1. unfold print at 1.
  cbn [print_results]. unfold bind at 1. unfold first_of at 1.
  destruct (metadatas results !! 0%nat) as [[|m ms]|] eqn:Hm; [done| |done].
  by specialize (Hmetas _ eq_refl).
Qed.

Lemma replay_other ws (c : Collection) content_id :
  content_id ∉ (λ x, x.1.1) <$> ws →
  replay E ws c !! content_id = c !! content_id.
Proof.
  induction ws as [|x ws IH]; [done|]. simpl.
  intros [Hne Hnin]%not_elem_of_cons.
  rewrite commit_other by done. by apply IH.
Qed.

Lemma replay_lookup_new ws (c : Collection) :
  (∀ c' i d, add_fault E c' i d = false) →
  NoDup ((λ x, x.1.1) <$> ws) →
  ∀ x, x ∈ ws → c !! x.1.1 = None →
    replay E ws c !! x.1.1 = Some (x.1.2, x.2).
Proof.
  intros Hf. induction ws as [|y ws IH]; intros Hnd x Hin Hfree.
  { by apply elem_of_nil in Hin. }
  simpl in *. apply NoDup_cons in Hnd as [Hy Hnd].
  apply elem_of_cons in Hin as [->|Hin].
  - rewrite commit_absent; [apply lookup_insert_eq| |apply Hf].
    by rewrite replay_other.
  - apply commit_keeps. by apply IH.
Qed.

(** X17.  With a working store, what a run writes under an id that was free
    before the run can be read back afterwards: the same text with the same
    metadata. *)
Theorem run_writes_are_readable url base n (c : Collection) lines :
  (∀ c' i d, add_fault E c' i d = false) →
  let r := pipeline E url base n (fresh c lines) in
  ∀ content_id content_text metadata,
    (content_id, content_text, metadata) ∈ writes (trace r.2) →
    c !! content_id = None →
    coll r.2 !! content_id = Some (content_text, metadata).
Proof.
  intros Hf r content_id content_text metadata Hin Hfree. subst r.
  destruct (run_record E url base n c lines) as (Hpm & Hc & _).
  rewrite Hc.
  apply (replay_lookup_new _ c Hf) with (x := (content_id, content_text, metadata));
    [|done..].
  apply pipeline_write_ids in Hpm as [_ Hnd].
  rewrite write_ids_milestones in Hnd. unfold history, write_ids in Hnd.
  rewrite writes_rev, fmap_rev in Hnd. by rewrite <- Permutation_rev in Hnd.
Qed.

Lemma decision_write_tagged base i d :
  decision_write base i d →
  ∃ x, writes [d] = [x] ∧ meta_id x.2 = x.1.1 ∧
    (x.1.1 = final_id base i ∧ version_type x.2 = "final" ∨
     x.1.1 = edited_id base i ∧ version_type x.2 = "human_edited").
Proof. intros [text|text]; eexists; (split; [reflexivity|]); auto. Qed.

Lemma loop_writes_tagged base todo i r l :
  loop_milestones base todo i r l →
  Forall (λ x, meta_id x.2 = x.1.1 ∧
               ∃ j : nat, (i ≤ j < i + todo)%nat ∧
                 (x.1.1 = spun_id base j ∧
                  version_type x.2 = "ai_spun_iter_" +:+ pretty j ∨
                  x.1.1 = final_id base j ∧ version_type x.2 = "final" ∨
                  x.1.1 = edited_id base j ∧ version_type x.2 = "human_edited"))
    (writes l).
Proof.
  induction 1 as [i|todo i|todo i text|todo i text|todo i text
                 |todo i text d r rest Hd Hrest IH].
  - constructor.
  - constructor.
  - repeat constructor. exists i. split; [lia|by left].
  - repeat constructor. exists i. split; [lia|by left].
  - repeat constructor; exists i; (split; [lia|]); auto.
  - destruct (decision_write_tagged base i d Hd) as (x & Hx & Hid & Htag).
    change (spun_write base i text :: d :: rest)
      with ([spun_write base i text] ++ [d] ++ rest).
    rewrite !writes_app, Hx. simpl.
    constructor; [split; [done|]; exists i; split; [lia|by left]|].
    constructor; [split; [done|]; exists i; split; [lia|tauto]|].
    eapply Forall_impl; [exact IH|].
    intros y (Hy & j & Hj & Hshape). split; [done|]. exists j. split; [lia|done].
Qed.

Lemma loop_writes_length base todo i r l :
  loop_milestones base todo i r l → (length (writes l) ≤ 2 * todo)%nat.
Proof.
  induction 1 as [i|todo i|todo i text|todo i text|todo i text
                 |todo i text d r rest Hd Hrest IH]; [simpl; lia..|].
  destruct (decision_write_tagged base i d Hd) as (x & Hx & _).
  change (spun_write base i text :: d :: rest)
    with ([spun_write base i text] ++ [d] ++ rest).
  rewrite !writes_app, Hx. simpl. lia.
Qed.

Lemma report_no_writes r rep : report_milestones r rep → writes rep = [].
Proof. by intros []. Qed.

Lemma pipeline_writes base n r l :
  pipeline_milestones base n r l →
  Forall (tagged_write base n) (writes l) ∧
  (length (writes l) ≤ 2 * n + 1)%nat.
Proof.
  assert (∀ loop r', loop_milestones base n 1 r' loop →
            Forall (tagged_write base n) (writes loop)) as Htag.
  { intros loop r' Hloop. eapply Forall_impl; [by eapply loop_writes_tagged|].
    intros x (Hx & j & Hj & Hshape). split; [done|]. right. exists j.
    split; [lia|done]. }
  intros [|text loop Hloop|text loop r' rep Hloop Hrep].
  - split; [constructor|simpl; lia].
  - change (?x :: loop) with ([x] ++ loop). rewrite writes_app. simpl. split.
    + constructor; [split; [done|by left]|by eapply Htag].
    + pose proof (loop_writes_length _ _ _ _ _ Hloop). lia.
  - change (?x :: loop ++ ?q :: rep) with ([x] ++ loop ++ [q] ++ rep).
    rewrite !writes_app, (report_no_writes _ _ Hrep). simpl.
    rewrite ?app_nil_r. split.
    + constructor; [split; [done|by left]|by eapply Htag].
    + pose proof (loop_writes_length _ _ _ _ _ Hloop). lia.
Qed.

(** X18.  Every write of a run carries metadata that repeats the id it is stored
    under and names the stage of that id: original, ai_spun_iter_i, final or
    human_edited.  A run of [n] iterations requests at most [2n + 1]
    writes. *)
Theorem run_writes_are_tagged url base n (c : Collection) lines :
  let r := pipeline E url base n (fresh c lines) in
  Forall (tagged_write base n) (writes (history r.2)) ∧
  (length (writes (history r.2)) ≤ 2 * n + 1)%nat.
Proof.
  intros r. subst r.
  destruct (run_record E url base n c lines) as (Hpm & _).
  rewrite <- writes_milestones. by eapply pipeline_writes.
Qed.

Lemma loop_spin_failure_index base todo i r l k :
  loop_milestones base todo i r l →
  In (Log ERROR (MsgSpinFailed k)) l → (i ≤ k < i + todo)%nat.
Proof.
  induction 1 as [i|todo i|todo i text|todo i text|todo i text
                 |todo i text d r rest Hd Hrest IH]; intros Hin.
  - destruct Hin.
  - destruct Hin as [[= ->]|[]]. lia.
  - destruct Hin as [Heq|[]]. discriminate.
  - destruct Hin as [Heq|[]]. discriminate.
  - destruct Hin as [Heq|[Heq|[]]]; discriminate.
  - destruct Hin as [Heq|[Heq|Hin]].
    + discriminate.
    + destruct Hd; discriminate.
    + specialize (IH Hin). lia.
Qed.

Lemma completed_iterations_writes base i k l :
  completed_iterations base i k l → length (writes l) = (2 * (k - i))%nat.
Proof.
  induction 1 as [i|i k text d rest Hd Hrest IH]; [simpl; lia|].
  destruct (decision_write_tagged base i d Hd) as (x & Hx & _).
  pose proof (completed_iterations_le _ _ _ _ Hrest).
  change (spun_write base i text :: d :: rest)
    with ([spun_write base i text] ++ [d] ++ rest).
  rewrite !writes_app, Hx. simpl. lia.
Qed.

(** X19.  When the log of a run records that the rewrite of iteration [k] failed,
    the iterations before [k] were all completed: the run requested exactly
    [2 (k - 1) + 1] writes (the original, and a rewrite and a checkpoint
    variant for each earlier iteration), then sent the query once, and did
    not end with the input. *)
Theorem spin_failure_at_iteration url base n k (c : Collection) lines :
  let r := pipeline E url base n (fresh c lines) in
  In (Log ERROR (MsgSpinFailed k)) (history r.2) →
  (1 ≤ k ≤ n)%nat ∧
  r.1 ≠ Raise EOFError ∧
  length (writes (history r.2)) = (2 * (k - 1) + 1)%nat ∧
  queries (history r.2) = [(search_query, default_n_results)].
Proof.
  intros r Hin. subst r.
  destruct (run_record E url base n c lines) as (Hpm & _).
  assert (In (Log ERROR (MsgSpinFailed k))
            (milestones (history (pipeline E url base n (fresh c lines)).2)))
    as Hin' by (apply List.filter_In; by split).
  rewrite <- writes_milestones, <- queries_milestones.
  destruct (pipeline E url base n (fresh c lines)) as [r w]. simpl in *.
  clear Hin. set (l := milestones (history w)) in *. clearbody l.
  destruct Hpm as [|text loop Hloop|text loop r' rep Hloop Hrep].
  - destruct Hin'.
  - destruct Hin' as [Heq|Hin']; [discriminate|].
    by destruct (loop_spin_failure _ _ _ _ _ _ Hloop Hin') as (? & _).
  - assert (In (Log ERROR (MsgSpinFailed k)) loop) as Hin.
    { destruct Hin' as [Heq|Hin']; [discriminate|].
      apply in_app_or in Hin' as [Hin'|[Heq|Hin']]; [done|discriminate|].
      destruct Hrep; simpl in Hin'; intuition discriminate. }
    pose proof (loop_spin_failure_index _ _ _ _ _ _ Hloop Hin) as Hk.
    destruct (loop_spin_failure _ _ _ _ _ _ Hloop Hin) as (_ & finished & Hfin & Hl).
    pose proof (completed_iterations_writes _ _ _ _ Hfin) as Hlen.
    destruct (loop_quiet_queries _ _ _ _ _ Hloop) as (Hq & _).
    destruct (report_quiet_writes _ _ Hrep) as [_ Hqr].
    split; [lia|]. split; [by destruct Hrep|]. split.
    + change (length (writes ([add_event (original_id base) text "original"]
                         ++ loop
                         ++ [Ext (CollectionQuery search_query default_n_results)]
                         ++ rep)) = (2 * (k - 1) + 1)%nat).
      rewrite !writes_app, (report_no_writes _ _ Hrep), Hl, writes_app. simpl.
      rewrite !length_app, Hlen. simpl. lia.
    + change (queries ([add_event (original_id base) text "original"]
                         ++ loop
                         ++ [Ext (CollectionQuery search_query default_n_results)]
                         ++ rep) = [(search_query, default_n_results)]).
      unfold queries in *. by rewrite !omap_app, Hq, Hqr.
Qed.

End RunProperties.

(** ** Further properties: what is never stored *)

Section NonEmpty.

Variable E : Env.

Lemma reaches_writes w ms w' :
  reaches E w ms w' → writes (trace w') = writes ms ++ writes (trace w).
Proof.
  intros (new & [Ht _] & <-). by rewrite writes_milestones, Ht, writes_app.
Qed.

Lemma truthy_nonempty o : Py.truthy o = true → ∃ s, o = Some s ∧ s ≠ "".
Proof. destruct o as [[|a s]|]; [done| |done]. intros _. by eexists. Qed.

Lemma iterations_writes_nonempty base todo :
  ∀ i cur w, ∃ r w' ms,
    iterations E base todo i cur w = (r, w') ∧
    reaches E w ms w' ∧ Forall nonempty_unless_edited (writes ms).
Proof.
  induction todo as [|todo IH]; intros i cur w.
  { eexists _, _, _. split; [reflexivity|]. split; [apply reaches_refl|constructor]. }
  rewrite iterations_S. unfold bind at 1. unfold log at 1. unfold bind at 1.
  destruct (ai_spin_chapter_quiet E cur i (emit (Log INFO (MsgIterationStart i)) w))
    as (o & w1 & -> & H1).
  assert (reaches E w [] w1) as Hw1.
  { eapply reaches_after_quiet; [|exact H1].
    apply reaches_emit_quiet; [reflexivity|apply reaches_refl]. }
  clear H1.
  destruct (Py.truthy o) eqn:Ho; cbn [negb].
  2:{ eexists _, _, _. split; [reflexivity|]. split.
      - apply reaches_emit; [reflexivity..|exact Hw1].
      - constructor. }
  destruct (truthy_nonempty o Ho) as (spun & -> & Hspun).
  cbn [default from_option id].
  unfold bind at 1.
  pose proof (store_returns E (base +:+ "_ai_spun_iter_" +:+ pretty i) spun
                ("ai_spun_iter_" +:+ pretty i) w1) as Hret.
  pose proof (reaches_store E (base +:+ "_ai_spun_iter_" +:+ pretty i) spun
                ("ai_spun_iter_" +:+ pretty i) w [] w1 Hw1) as Hw2.
  destruct (store_content_in_chroma E _ _ _ w1) as [r2 w2].
  simpl in Hret, Hw2. subst r2.
  unfold bind at 1.
  destruct (ai_review_chapter_quiet E spun w2) as (fb & w3 & -> & H3).
  unfold bind at 1.
  destruct (show_feedback_quiet E fb w3) as (w4 & -> & H4).
  unfold bind at 1.
  destruct (human_in_the_loop_feedback_outcome E spun (base +:+ "_iter_" +:+ pretty i) w4)
    as (r & w5 & ms & -> & H5 & Hout).
  assert (reaches E w (ms ++ [spun_write base i spun]) w5) as Hw5.
  { eapply reaches_trans; [exact Hw2|].
    eapply reaches_after_quiet; [exact H3|].
    eapply reaches_after_quiet; [exact H4|]. exact H5. }
  assert (Forall nonempty_unless_edited (writes (ms ++ [spun_write base i spun])))
    as Hok.
  { rewrite writes_app. apply Forall_app. split.
    - destruct Hout; simpl; repeat constructor;
        unfold nonempty_unless_edited; simpl; congruence.
    - simpl. repeat constructor. unfold nonempty_unless_edited. simpl. congruence. }
  clear Hw1 Hw2 H3 H4 H5.
  assert (∀ d, d ≠ "" →
            ∃ r' w' ms',
              iterations E base todo (S i) d w5 = (r', w') ∧
              reaches E w ms' w' ∧ Forall nonempty_unless_edited (writes ms'))
    as Hnext.
  { intros d Hd. destruct (IH (S i) d w5) as (r' & w6 & ms' & -> & H6 & Hok').
    eexists _, _, _. split; [reflexivity|]. split.
    - eapply reaches_trans; [exact Hw5|exact H6].
    - rewrite writes_app. apply Forall_app. by split. }
  assert (∃ ms', reaches E w ms' (emit (Log WARNING (MsgRejectedInIteration i)) w5) ∧
                 Forall nonempty_unless_edited (writes ms')) as Hstop.
  { eexists. split; [apply reaches_emit_quiet; [reflexivity|exact Hw5]|exact Hok]. }
  destruct r as [d|e].
  - destruct (Py.truthy d) eqn:Hd.
    + destruct (truthy_nonempty d Hd) as (s & -> & Hs). by apply Hnext.
    + destruct Hstop as (ms' & ? & ?). eexists _, _, _. by split.
  - eexists _, _, _. split; [reflexivity|]. by split.
Qed.

Lemma pipeline_writes_nonempty url base n w :
  ∃ ms, reaches E w ms (pipeline E url base n w).2 ∧
        Forall nonempty_unless_edited (writes ms).
Proof.
  unfold pipeline. destruct (collection_ready E); cbn [negb].
  2:{ exists []. split; [|constructor].
      apply reaches_emit_quiet; [reflexivity|apply reaches_refl]. }
  unfold bind at 1. unfold log at 1. unfold bind at 1.
  match goal with |- context [scrape_and_screenshot E ?a ?b ?v] =>
    destruct (scrape_and_screenshot_quiet E a b v) as (o & w1 & -> & H1) end.
  assert (reaches E w [] w1) as Hw1.
  { eapply reaches_after_quiet; [|exact H1].
    apply reaches_emit_quiet; [reflexivity|apply reaches_refl]. }
  clear H1.
  destruct (Py.truthy o) eqn:Ho; cbn [negb].
  2:{ exists []. split; [|constructor].
      apply reaches_emit_quiet; [reflexivity|exact Hw1]. }
  destruct (truthy_nonempty o Ho) as (original & -> & Horiginal).
  cbn [default from_option id].
  unfold bind at 1.
  pose proof (store_returns E (base +:+ "_original") original "original" w1) as Hret.
  pose proof (reaches_store E (base +:+ "_original") original "original" w [] w1 Hw1)
    as Hw2.
  destruct (store_content_in_chroma E _ _ _ w1) as [r2 w2].
  simpl in Hret, Hw2. subst r2.
  unfold bind at 1.
  destruct (iterations_writes_nonempty base n 1 original w2)
    as (r & w3 & ms & -> & H3 & Hok).
  assert (reaches E w (ms ++ [add_event (original_id base) original "original"]) w3)
    as Hw3 by (eapply reaches_trans; [exact Hw2|exact H3]).
  assert (Forall nonempty_unless_edited
            (writes (ms ++ [add_event (original_id base) original "original"])))
    as Hok3.
  { rewrite writes_app. apply Forall_app. split; [done|].
    simpl. repeat constructor. unfold nonempty_unless_edited. simpl. congruence. }
  destruct r as [[]|e]; [|by eexists].
  unfold bind at 1. unfold print at 1. unfold bind at 1.
  match goal with |- context [semantic_search_chroma E ?a ?b ?v] =>
    destruct (semantic_search_chroma_result E a b v) as (res & w4 & -> & H4 & Hres) end.
  assert (∃ ms4, reaches E w ms4 w4 ∧ Forall nonempty_unless_edited (writes ms4))
    as (ms4 & Hw4 & Hok4).
  { eexists. split.
    - eapply reaches_trans; [|exact H4].
      apply reaches_emit_quiet; [reflexivity|exact Hw3].
    - rewrite writes_app. apply Forall_app. split; [constructor|done]. }
  unfold bind at 1.
  assert (∃ r5 w5 ms5, report res w4 = (r5, w5) ∧ reaches E w4 ms5 w5 ∧
                       writes ms5 = []) as (r5 & w5 & ms5 & -> & H5 & Hw5).
  { destruct Hres as [-> | (hits & Hhits & ->)].
    - destruct (report_none E w4) as (w5 & -> & H5). by eexists _, _, _.
    - destruct (report_hits E hits w4) as (r & w5 & ms5 & -> & H5 & Hrep & _).
      { rewrite Hhits, length_take. unfold default_n_results. lia. }
      eexists _, _, _. split; [reflexivity|]. split; [exact H5|].
      rewrite <- (rev_involutive ms5), writes_rev.
      by rewrite (report_no_writes _ _ Hrep). }
  assert (Forall nonempty_unless_edited (writes (ms5 ++ ms4))) as Hok5.
  { by rewrite writes_app, Hw5. }
  destruct r5 as [[]|e].
  - unfold log. eexists. split; [|exact Hok5].
    apply reaches_emit_quiet; [reflexivity|]. by eapply reaches_trans.
  - eexists. split; [|exact Hok5]. by eapply reaches_trans.
Qed.

(** X20.  An empty text is never stored as original, rewrite or final variant: in
    every run, the only writes with an empty document are human edits. *)
Theorem run_stores_no_empty_text url base n (c : Collection) lines :
  Forall nonempty_unless_edited
    (writes (trace (pipeline E url base n (fresh c lines)).2)).
Proof.
  destruct (pipeline_writes_nonempty url base n (fresh c lines))
    as (ms & Hr & Hok).
  rewrite (reaches_writes _ _ _ Hr). simpl. by rewrite app_nil_r.
Qed.

End NonEmpty.

(** ** Further properties: how a line is read *)

Section Lines.

Lemma isspace_lower_char c : Py.isspace (Py.lower_char c) = Py.isspace c.
Proof. destruct c as [[] [] [] [] [] [] [] []]; reflexivity. Qed.

Lemma isspace_upper_char c : Py.isspace (Py.upper_char c) = Py.isspace c.
Proof. destruct c as [[] [] [] [] [] [] [] []]; reflexivity. Qed.

Lemma lower_upper_char c : Py.lower_char (Py.upper_char c) = Py.lower_char c.
Proof. destruct c as [[] [] [] [] [] [] [] []]; reflexivity. Qed.

Lemma upper_lower_char c : Py.upper_char (Py.lower_char c) = Py.upper_char c.
Proof. destruct c as [[] [] [] [] [] [] [] []]; reflexivity. Qed.

Lemma map_chars_app f a b :
  Py.map_chars f (a +:+ b) = Py.map_chars f a +:+ Py.map_chars f b.
Proof.
  induction a as [|c a IH]; [done|]. rewrite !app_String. simpl.
  by rewrite app_String, IH.
Qed.

Lemma map_chars_compose f g s :
  Py.map_chars f (Py.map_chars g s) = Py.map_chars (λ c, f (g c)) s.
Proof. induction s as [|c s IH]; [done|]. simpl. by rewrite IH. Qed.

Lemma map_chars_ext f g s :
  (∀ c, f c = g c) → Py.map_chars f s = Py.map_chars g s.
Proof. intros H. induction s as [|c s IH]; [done|]. simpl. by rewrite H, IH. Qed.

Lemma rev_app_spec s acc : String.rev_app s acc = String.rev s +:+ acc.
Proof.
  unfold String.rev. revert acc.
  induction s as [|c s IH]; intros acc; [done|]. simpl.
  rewrite IH, (IH (String c "")), string_app_assoc. by rewrite app_String.
Qed.

Lemma rev_String c s : String.rev (String c s) = String.rev s +:+ String c "".
Proof. unfold String.rev at 1. simpl. apply rev_app_spec. Qed.

Lemma string_app_empty_r s : s +:+ "" = s.
Proof. induction s as [|c s IH]; [done|]. by rewrite app_String, IH. Qed.

Lemma rev_string_app a b : String.rev (a +:+ b) = String.rev b +:+ String.rev a.
Proof.
  induction a as [|c a IH].
  - by rewrite string_app_empty_r.
  - by rewrite app_String, !rev_String, IH, string_app_assoc.
Qed.

Lemma map_chars_rev f s :
  Py.map_chars f (String.rev s) = String.rev (Py.map_chars f s).
Proof.
  induction s as [|c s IH]; [done|]. simpl.
  by rewrite !rev_String, map_chars_app, IH.
Qed.

Lemma all_space_app a b : all_space (a +:+ b) = all_space a && all_space b.
Proof.
  induction a as [|c a IH]; [done|]. rewrite app_String. simpl.
  by rewrite IH, andb_assoc.
Qed.

Lemma all_space_rev s : all_space (String.rev s) = all_space s.
Proof.
  induction s as [|c s IH]; [done|].
  rewrite rev_String, all_space_app, IH. simpl.
  by rewrite andb_true_r, andb_comm.
Qed.

Lemma lstrip_all_space a t : all_space a = true → Py.lstrip (a +:+ t) = Py.lstrip t.
Proof.
  induction a as [|c a IH]; [done|]. simpl.
  intros [Hc Ha]%andb_true_iff. rewrite ?app_String. simpl. rewrite Hc. by apply IH.
Qed.

Lemma lstrip_app t b : Py.lstrip t ≠ "" → Py.lstrip (t +:+ b) = Py.lstrip t +:+ b.
Proof.
  induction t as [|c t IH]; [done|]. simpl. rewrite ?app_String. simpl.
  destruct (Py.isspace c); [exact IH|]. by rewrite ?app_String.
Qed.

Lemma lstrip_blank t : Py.lstrip t = "" → all_space t = true.
Proof.
  induction t as [|c t IH]; [done|]. simpl.
  destruct (Py.isspace c); [exact IH|done].
Qed.

Lemma lstrip_map_chars f s :
  (∀ c, Py.isspace (f c) = Py.isspace c) →
  Py.lstrip (Py.map_chars f s) = Py.map_chars f (Py.lstrip s).
Proof.
  intros Hf. induction s as [|c s IH]; [done|]. simpl. rewrite Hf.
  by destruct (Py.isspace c).
Qed.

Lemma strip_map_chars f s :
  (∀ c, Py.isspace (f c) = Py.isspace c) →
  Py.strip (Py.map_chars f s) = Py.map_chars f (Py.strip s).
Proof.
  intros Hf. unfold Py.strip.
  by rewrite lstrip_map_chars, <- map_chars_rev, lstrip_map_chars, map_chars_rev.
Qed.

Lemma strip_padding a t b :
  all_space a = true → all_space b = true →
  Py.strip (a +:+ t +:+ b) = Py.strip t.
Proof.
  intros Ha Hb. unfold Py.strip. rewrite lstrip_all_space by done.
  destruct (Py.lstrip t) as [|c u] eqn:Hu.
  - rewrite lstrip_all_space by (by apply lstrip_blank).
    assert (Py.lstrip b = "") as ->; [|done].
    rewrite <- (string_app_empty_r b). by rewrite lstrip_all_space.
  - rewrite lstrip_app by (by rewrite Hu). rewrite Hu, rev_string_app.
    rewrite lstrip_all_space; [done|]. by rewrite all_space_rev.
Qed.

(** X21.  Blanks around a line and the case of its letters never change what the
    checkpoint reads from it, neither as a decision nor as the sentinel of
    an edit. *)
Theorem lines_ignore_case_and_blanks a s b :
  all_space a = true → all_space b = true →
  action_of (a +:+ s +:+ b) = action_of s ∧
  action_of (Py.upper s) = action_of s ∧
  is_sentinel (a +:+ s +:+ b) = is_sentinel s ∧
  is_sentinel (Py.lower s) = is_sentinel s.
Proof.
  intros Ha Hb. unfold action_of, is_sentinel, Py.lower, Py.upper.
  split; [|split; [|split]].
  - rewrite !map_chars_app. apply strip_padding.
    + rewrite <- Ha. clear. induction a as [|c a IH]; [done|]. simpl.
      by rewrite isspace_lower_char, IH.
    + rewrite <- Hb. clear. induction b as [|c b IH]; [done|]. simpl.
      by rewrite isspace_lower_char, IH.
  - rewrite map_chars_compose.
    by rewrite (map_chars_ext _ Py.lower_char) by apply lower_upper_char.
  - by rewrite strip_padding.
  - rewrite (strip_map_chars Py.lower_char) by apply isspace_lower_char.
    rewrite map_chars_compose.
    by rewrite (map_chars_ext _ Py.upper_char) by apply upper_lower_char.
Qed.

End Lines.

(** ** Further properties: the output directory *)

Section OutputDirectory.

Context {FS : Type} (os : OS FS).

(** X22.  Whenever [ensure_directory] returns, the path exists and is no file: a
    file in the way has been removed and a directory made in its place.  A
    path that already exists and is no file is left exactly as it is. *)
Theorem ensure_directory_result path fs :
  OSLaws os →
  (∀ fs', ensure_directory os path fs = Some fs' →
     os_path_exists os fs' path = true ∧ os_path_isfile os fs' path = false) ∧
  (os_path_isfile os fs path = false → os_path_exists os fs path = true →
   ensure_directory os path fs = Some fs).
Proof.
  intros [Hremove Hmake]. unfold ensure_directory. split.
  - intros fs'. destruct (os_path_isfile os fs path) eqn:Hfile.
    + destruct (os_remove os fs path) as [fs1|] eqn:Hrm; [|done].
      rewrite (Hremove _ _ _ Hrm). simpl. apply Hmake.
    + destruct (os_path_exists os fs path) eqn:Hex; simpl.
      * by intros [= <-].
      * apply Hmake.
  - by intros -> ->.
Qed.

End OutputDirectory.

Lemma flat_os_laws : OSLaws flat_os.
Proof.
  split; simpl.
  - intros fs p fs'. case_bool_decide; [|done]. intros [= <-].
    apply bool_decide_eq_false. rewrite lookup_delete_eq. by intros [??].
  - intros fs p fs'. case_bool_decide; [done|]. intros [= <-]. split.
    + apply bool_decide_eq_true. rewrite lookup_insert_eq. by eexists.
    + apply bool_decide_eq_false. by rewrite lookup_insert_eq.
Qed.

(** ** The further properties on examples *)




Lemma ai_spin_chapter_behaviour_witness :
  let E := Demo.env IgnoreDuplicate in
  let w := fresh ∅ [] in
  ("One" ≠ "" ∧ ai_spin_chapter E "" 1 w = (Ret None, w)) ∧
  (ai_spin_chapter E "One" 1 w).1 = Ret (Some "draft 0") ∧
  prompts (trace (ai_spin_chapter E "One" 1 w).2) = [spin_prompt "One" 1].
Proof.
  intros E w.
  destruct (ai_spin_chapter_behaviour E "" 1 w) as (_ & _ & _ & Hempty & _).
  destruct (ai_spin_chapter_behaviour E "One" 1 w) as (_ & _ & _ & _ & Hcall).
  assert ("One" ≠ "") as Hne by discriminate.
  split; [split; [exact Hne|exact (Hempty eq_refl)]|].
  exact (Hcall Hne).
Defined.

Lemma ai_review_chapter_behaviour_witness :
  let E := Demo.env_spin2_fails in
  let w := {| coll := ∅; stdin := [];
              trace := [Ext (GenerateContent "second"); Ext (GenerateContent "first")] |} in
  ("draft" ≠ "" ∧ ai_review_chapter E "" w = (Ret None, w)) ∧
  (ai_review_chapter E "draft" w).1 = Ret None ∧
  prompts (trace (ai_review_chapter E "draft" w).2)
  = [review_prompt "draft"; "second"; "first"].
Proof.
  intros E w.
  destruct (ai_review_chapter_behaviour E "" w) as (_ & _ & _ & Hempty & _).
  destruct (ai_review_chapter_behaviour E "draft" w) as (_ & _ & _ & _ & Hcall).
  assert ("draft" ≠ "") as Hne by discriminate.
  split; [split; [exact Hne|exact (Hempty eq_refl)]|].
  exact (Hcall Hne).
Defined.

Lemma scrape_prefers_primary_selector_witness :
  (browse Cases.env_primary target_url = Loaded Cases.page_both ∧
   primary_paragraphs Cases.page_both ≠ []) ∧
  (scrape_and_screenshot Cases.env_primary target_url default_output_dir
     (fresh ∅ [])).1
  = Ret (Some ("Intro" +:+ Py.nl +:+ "Body")).
Proof.
  assert (primary_paragraphs Cases.page_both ≠ []) as Hne by discriminate.
  split; [by split|].
  exact (scrape_prefers_primary_selector Cases.env_primary target_url
           default_output_dir Cases.page_both (fresh ∅ []) eq_refl Hne).
Defined.

Lemma semantic_search_chroma_behaviour_witness :
  let E := Demo.env IgnoreDuplicate in
  let w := fresh Demo.stored_original [] in
  (query_fault E (coll w) search_query = false ∧ (0 < 3)%nat) ∧
  ∃ docs metas dists,
    (semantic_search_chroma E search_query 3 w).1
    = Ret (Some {| documents := [docs]; metadatas := [metas];
                   distances := [dists] |}) ∧
    length docs = 1%nat ∧ length metas = length docs ∧
    length dists = length docs.
Proof.
  intros E w.
  assert (0 < 3)%nat as Hpos by lia.
  split; [by split|].
  destruct (semantic_search_chroma_behaviour E search_query 3 w)
    as (_ & _ & _ & _ & _ & Hok).
  destruct (Hok eq_refl Hpos) as (docs & metas & dists & Hret & Hlen & Hm & Hd).
  exists docs, metas, dists. split; [exact Hret|]. split; [|by split].
  rewrite Hlen. reflexivity.
Defined.

Lemma iteration_accept_continues_witness :
  let E := Demo.env IgnoreDuplicate in
  let w := fresh ∅ ["Accept"; "reject"] in
  ("One" ≠ "" ∧ "draft 0" ≠ "" ∧
   gemini E (length (prompts (trace w))) (spin_prompt "One" 1) = Some "draft 0" ∧
   stdin w = "Accept" :: ["reject"] ∧ action_of "Accept" = "accept") ∧
  ∃ w',
    iterations E "ch1" 2 1 "One" w = iterations E "ch1" 1 2 "draft 0" w' ∧
    stdin w' = ["reject"] ∧
    write_ids (trace w') = ["ch1_iter_1_final"; "ch1_ai_spun_iter_1"].
Proof.
  intros E w.
  assert ("One" ≠ "") as H1 by discriminate.
  assert ("draft 0" ≠ "") as H2 by discriminate.
  split; [by repeat split|].
  destruct (iteration_accept_continues E "ch1" 1 1 "One" "draft 0" "Accept"
              ["reject"] w H1 H2 eq_refl eq_refl eq_refl)
    as (w' & Heq & Hin & Hw & _).
  exists w'. split; [exact Heq|]. split; [exact Hin|]. exact Hw.
Defined.


Lemma iteration_reject_ends_the_loop_witness :
  let E := Demo.env IgnoreDuplicate in
  let w := fresh ∅ ["Reject"; "accept"; "accept"] in
  ("One" ≠ "" ∧ "draft 0" ≠ "" ∧
   gemini E (length (prompts (trace w))) (spin_prompt "One" 1) = Some "draft 0" ∧
   action_of "Reject" = "reject") ∧
  let r := iterations E "ch1" 3 1 "One" w in
  r.1 = Ret tt ∧ stdin r.2 = ["accept"; "accept"] ∧
  write_ids (trace r.2) = ["ch1_ai_spun_iter_1"] ∧
  iterations_started (trace r.2) = [1%nat].
Proof.
  intros E w.
  assert ("One" ≠ "") as H1 by discriminate.
  assert ("draft 0" ≠ "") as H2 by discriminate.
  split; [by repeat split|].
  destruct (iteration_reject_ends_the_loop E "ch1" 2 1 "One" "draft 0" "Reject"
              ["accept"; "accept"] w H1 H2 eq_refl eq_refl eq_refl)
    as (Hret & Hin & Hw & Hs & _).
  by repeat split.
Defined.

Lemma run_endings_witness :
  let r := pipeline (Demo.env IgnoreDuplicate) target_url "ch1" 2
             (fresh ∅ ["accept"; "maybe"]) in
  r.1 = Raise EOFError ∧ stdin r.2 = [] ∧ queries (history r.2) = [].
Proof.
  intros r.
  assert (r.1 = Raise EOFError) as Hr by (vm_compute; reflexivity).
  destruct (run_endings (Demo.env IgnoreDuplicate) target_url "ch1" 2 ∅
              ["accept"; "maybe"]) as (_ & Heof & _).
  split; [exact Hr|]. exact (Heof Hr).
Defined.

Lemma run_without_text_witness :
  let E := Cases.env_blank_page in
  match browse E target_url with
  | Loaded page => scraped_text page = ""
  | _ => True
  end ∧
  let r := pipeline E target_url "ch1" 2 (fresh ∅ ["accept"]) in
  r.1 = Ret tt ∧ writes (trace r.2) = [] ∧ prompts (trace r.2) = [] ∧
  queries (trace r.2) = [] ∧ stdin r.2 = ["accept"].
Proof.
  intros E. split; [reflexivity|].
  destruct (run_without_text E target_url "ch1" 2 ∅ ["accept"]
              (or_intror eq_refl)) as (Hret & Hw & Hp & Hq & _ & Hin).
  by repeat split.
Defined.

Lemma report_without_hits_witness :
  (documents Cases.no_hits ≠ [] ∧
   ∀ ms, metadatas Cases.no_hits !! 0%nat = Some ms → ms = []) ∧
  (report (Some Cases.no_hits) (fresh ∅ [])).1 = Raise IndexError.
Proof.
  assert (documents Cases.no_hits ≠ []) as H1 by discriminate.
  assert (∀ ms, metadatas Cases.no_hits !! 0%nat = Some ms → ms = []) as H2
    by (by intros ms [= <-]).
  split; [by split|].
  exact (f_equal fst (report_without_hits Cases.no_hits (fresh ∅ []) H1 H2)).
Defined.

Lemma run_writes_are_readable_witness :
  let E := Demo.env IgnoreDuplicate in
  let r := pipeline E target_url "ch1" 1 (fresh ∅ ["accept"]) in
  let m := {| meta_id := "ch1_iter_1_final"; version_type := "final" |} in
  ((∀ c' i d, add_fault E c' i d = false) ∧
   ("ch1_iter_1_final", "draft 0", m) ∈ writes (trace r.2) ∧
   (∅ : Collection) !! "ch1_iter_1_final" = None) ∧
  coll r.2 !! "ch1_iter_1_final" = Some ("draft 0", m).
Proof.
  intros E r m.
  assert (∀ (c' : Collection) i d, add_fault E c' i d = false) as Hf
    by reflexivity.
  assert (("ch1_iter_1_final", "draft 0", m) ∈ writes (trace r.2)) as Hin.
  { assert (writes (trace r.2)
            = [("ch1_iter_1_final", "draft 0", m);
               ("ch1_ai_spun_iter_1", "draft 0",
                {| meta_id := "ch1_ai_spun_iter_1";
                   version_type := "ai_spun_iter_1" |});
               ("ch1_original", "One" +:+ Py.nl +:+ "Two",
                {| meta_id := "ch1_original"; version_type := "original" |})])
      as -> by (vm_compute; reflexivity).
    apply list_elem_of_here. }
  split; [by repeat split|].
  exact (run_writes_are_readable E target_url "ch1" 1 ∅ ["accept"] Hf
           "ch1_iter_1_final" "draft 0" m Hin eq_refl).
Defined.

Lemma spin_failure_at_iteration_witness :
  let r := pipeline Demo.env_spin2_fails target_url "ch1" 5
             (fresh ∅ ["accept"; "accept"]) in
  In (Log ERROR (MsgSpinFailed 2)) (history r.2) ∧
  r.1 ≠ Raise EOFError ∧
  length (writes (history r.2)) = 3%nat ∧
  queries (history r.2) = [(search_query, default_n_results)].
Proof.
  intros r.
  assert (In (Log ERROR (MsgSpinFailed 2)) (history r.2)) as Hin.
  { vm_compute. repeat (first [left; reflexivity | right]). }
  split; [exact Hin|].
  destruct (spin_failure_at_iteration Demo.env_spin2_fails target_url "ch1" 5 2 ∅
              ["accept"; "accept"] Hin) as (_ & Hr & Hlen & Hq).
  by repeat split.
Defined.

Lemma lines_ignore_case_and_blanks_witness :
  (all_space "  " = true ∧ all_space (" " +:+ Py.nl) = true) ∧
  action_of ("  " +:+ "Accept" +:+ " " +:+ Py.nl) = "accept" ∧
  is_sentinel ("  " +:+ "Done" +:+ " " +:+ Py.nl) = true.
Proof.
  split; [by split|].
  destruct (lines_ignore_case_and_blanks "  " "Accept" (" " +:+ Py.nl)
              eq_refl eq_refl) as (Ha & _).
  destruct (lines_ignore_case_and_blanks "  " "Done" (" " +:+ Py.nl)
              eq_refl eq_refl) as (_ & _ & Hs & _).
  split.
  - exact (eq_trans Ha eq_refl).
  - exact (eq_trans Hs eq_refl).
Defined.

Lemma ensure_directory_result_witness :
  OSLaws flat_os ∧
  ensure_directory flat_os "screenshots" Cases.file_in_the_way
  = Some {[ "screenshots" := false ]} ∧
  os_path_exists flat_os {[ "screenshots" := false ]} "screenshots" = true ∧
  os_path_isfile flat_os {[ "screenshots" := false ]} "screenshots" = false ∧
  ensure_directory flat_os "screenshots" {[ "screenshots" := false ]}
  = Some {[ "screenshots" := false ]}.
Proof.
  split; [exact flat_os_laws|].
  assert (ensure_directory flat_os "screenshots" Cases.file_in_the_way
          = Some {[ "screenshots" := false ]}) as Hrun.
  { unfold ensure_directory, Cases.file_in_the_way. simpl.
    rewrite !lookup_singleton_eq. simpl.
    rewrite delete_singleton_eq, lookup_empty. simpl.
    by rewrite insert_empty. }
  destruct (ensure_directory_result flat_os "screenshots" Cases.file_in_the_way
              flat_os_laws) as [Hres _].
  destruct (Hres _ Hrun) as [Hex Hfile].
  destruct (ensure_directory_result flat_os "screenshots"
              {[ "screenshots" := false ]} flat_os_laws) as [_ Hkeep].
  split; [exact Hrun|]. split; [exact Hex|]. split; [exact Hfile|].
  exact (Hkeep Hfile Hex).
Defined.
